(** * Travel_app: flight filtering, parsing and provider selection

    A shallow embedding of the core of the flight search tool
    ([travel_app.py], [providers/base.py], [providers/amadeus.py],
    [providers/skyscanner.py] and the Amadeus adapter of
    [app_streamlit_new.py]) together with the properties its design
    document states about it.

    Conventions of the embedding:
    - Python [float] is IEEE binary64, here the kernel's primitive [float];
    - Python [int] is [Z];
    - Python [str] is [string], restricted to ASCII text;
    - Python [set] is stdpp's [gset]; [list(set(..))] is [elements];
    - an exception is a value of [exn], a call that may raise returns
      a [result];
    - [None]-or-value arguments are [option]s, and Python truthiness is
      written out where the source relies on it. *)

From Stdlib Require Import ZArith List String Ascii Bool Lia Floats.
From stdpp Require Import base gmap strings list sorting.
Import ListNotations.

Local Open Scope string_scope.
Local Open Scope Z_scope.

(** ** Python primitives *)

Module Py.

(** Exceptions that occur in the modelled code.  [Exit] is
    [typer.Exit(code)]. *)
Inductive exn : Type :=
| ValueError
| TypeError
| NotImplementedError
| Exit (code : Z).

Inductive result (A : Type) : Type :=
| Ok (a : A)
| Raise (e : exn).
Arguments Ok {A} a.
Arguments Raise {A} e.

Definition bind {A B} (r : result A) (k : A -> result B) : result B :=
  match r with
  | Ok a => k a
  | Raise e => Raise e
  end.

(** [try: body except ValueError: handler] *)
Definition except_ValueError {A} (body : result A) (handler : result A)
  : result A :=
  match body with
  | Raise ValueError => handler
  | r => r
  end.

(** [try: body except Exception: handler]; [typer.Exit] derives from
    [RuntimeError] and is caught as well. *)
Definition except_Exception {A} (body : result A) (handler : exn -> result A)
  : result A :=
  match body with
  | Raise e => handler e
  | r => r
  end.

(** *** Strings *)

Definition is_lower (c : ascii) : bool :=
  let n := nat_of_ascii c in (97 <=? n)%nat && (n <=? 122)%nat.

Definition upper_char (c : ascii) : ascii :=
  if is_lower c then ascii_of_nat (nat_of_ascii c - 32) else c.

(** [str.upper()] on ASCII text. *)
Fixpoint upper (s : string) : string :=
  match s with
  | EmptyString => EmptyString
  | String c s' => String (upper_char c) (upper s')
  end.

(** [s.split(sep)] for a one-character separator: the fields between
    the occurrences of [sep], never an empty list. *)
Fixpoint split (sep : ascii) (s : string) : list string :=
  match s with
  | EmptyString => [EmptyString]
  | String c s' =>
      if Ascii.eqb c sep then EmptyString :: split sep s'
      else match split sep s' with
           | [] => [String c EmptyString]
           | w :: ws => String c w :: ws
           end
  end.

(** Characters that [int()] strips: Python's [str.isspace] on ASCII. *)
Definition is_space (c : ascii) : bool :=
  let n := nat_of_ascii c in
  ((9 <=? n)%nat && (n <=? 13)%nat) || ((28 <=? n)%nat && (n <=? 32)%nat).

Definition is_digit (c : ascii) : bool :=
  let n := nat_of_ascii c in (48 <=? n)%nat && (n <=? 57)%nat.

Definition digit_val (c : ascii) : Z := Z.of_nat (nat_of_ascii c) - 48.

Fixpoint lstrip (s : string) : string :=
  match s with
  | String c s' => if is_space c then lstrip s' else s
  | EmptyString => EmptyString
  end.

(** Drops trailing white space; [None] when only white space is left. *)
Fixpoint rstrip_aux (s : string) : option string :=
  match s with
  | EmptyString => None
  | String c s' =>
      match rstrip_aux s' with
      | Some r => Some (String c r)
      | None => if is_space c then None else Some (String c EmptyString)
      end
  end.

Definition rstrip (s : string) : string :=
  match rstrip_aux s with Some r => r | None => EmptyString end.

Definition strip (s : string) : string := rstrip (lstrip s).

(** The digits of a decimal literal, after the sign: groups of digits
    separated by single underscores.  [acc] is the value read so far,
    [after_digit] says whether the previous character was a digit. *)
Fixpoint int_digits (s : string) (acc : Z) (after_digit : bool) : option Z :=
  match s with
  | EmptyString => if after_digit then Some acc else None
  | String c s' =>
      if is_digit c then int_digits s' (10 * acc + digit_val c) true
      else if Ascii.eqb c "_"%char then
        if after_digit then int_digits s' acc false else None
      else None
  end.

(** [int(s)] for a string [s], base 10: surrounding white space is
    dropped, one sign is allowed. *)
Definition int (s : string) : result Z :=
  let body := strip s in
  let '(neg, ds) :=
    match body with
    | String "-"%char r => (true, r)
    | String "+"%char r => (false, r)
    | _ => (false, body)
    end in
  match int_digits ds 0 false with
  | Some n => Ok (if neg then - n else n)
  | None => Raise ValueError
  end.

(** [map(int, xs)], consumed to the end by a tuple unpacking. *)
Fixpoint map_int (xs : list string) : result (list Z) :=
  match xs with
  | [] => Ok []
  | x :: xs' =>
      bind (int x) (fun n => bind (map_int xs') (fun ns => Ok (n :: ns)))
  end.

(** *** [datetime.date], [datetime.time], [datetime.datetime] *)

Record date : Type := mk_date { year : Z; month : Z; day : Z }.

Record time : Type :=
  mk_time { hour : Z; minute : Z; second : Z; microsecond : Z }.

(** A [tzinfo] is a [ZoneInfo] object, identified by its key;
    [ZoneInfo(key)] returns the same object for the same key. *)
Record datetime : Type :=
  mk_datetime { dt_date : date; dt_time : time; tzinfo : option string }.

(** The constructor [time(hour, minute)] checks its arguments. *)
Definition time_ctor (h m : Z) : result time :=
  if ((0 <=? h) && (h <=? 23) && (0 <=? m) && (m <=? 59))%Z
  then Ok (mk_time h m 0 0)
  else Raise ValueError.

Definition date_cmp (a b : date) : comparison :=
  match year a ?= year b with
  | Eq => match month a ?= month b with
          | Eq => day a ?= day b
          | c => c
          end
  | c => c
  end.

Definition time_cmp (a b : time) : comparison :=
  match hour a ?= hour b with
  | Eq => match minute a ?= minute b with
          | Eq => match second a ?= second b with
                  | Eq => microsecond a ?= microsecond b
                  | c => c
                  end
          | c => c
          end
  | c => c
  end.

Definition is_le (c : comparison) : bool :=
  match c with Gt => false | _ => true end.
Definition is_lt (c : comparison) : bool :=
  match c with Lt => true | _ => false end.
Definition is_eq (c : comparison) : bool :=
  match c with Eq => true | _ => false end.

Definition date_le (a b : date) : bool := is_le (date_cmp a b).
Definition date_eq (a b : date) : bool := is_eq (date_cmp a b).
Definition time_le (a b : time) : bool := is_le (time_cmp a b).

(** Comparison of the wall-clock fields of two datetimes. *)
Definition naive_cmp (a b : datetime) : comparison :=
  match date_cmp (dt_date a) (dt_date b) with
  | Eq => time_cmp (dt_time a) (dt_time b)
  | c => c
  end.

(** [datetime.min] *)
Definition datetime_min : datetime :=
  mk_datetime (mk_date 1 1 1) (mk_time 0 0 0 0) None.

(** Days since 0001-01-01 of a proleptic Gregorian date
    ([date.toordinal() - 1]). *)
Definition is_leap (y : Z) : bool :=
  (((y mod 4 =? 0) && negb (y mod 100 =? 0)) || (y mod 400 =? 0))%Z.

Definition days_before_year (y : Z) : Z :=
  let p := y - 1 in p * 365 + p / 4 - p / 100 + p / 400.

Definition days_before_month (y m : Z) : Z :=
  nth (Z.to_nat (m - 1))
      [0; 31; 59; 90; 120; 151; 181; 212; 243; 273; 304; 334] 0
  + (if (2 <? m)%Z && is_leap y then 1 else 0).

Definition ordinal (d : date) : Z :=
  days_before_year (year d) + days_before_month (year d) (month d)
  + (day d - 1).

(** Microseconds of the wall-clock reading since 0001-01-01T00:00. *)
Definition wall_micros (d : datetime) : Z :=
  let t := dt_time d in
  ((ordinal (dt_date d) * 86400
    + hour t * 3600 + minute t * 60 + second t) * 1000000)
  + microsecond t.

End Py.
Export Py.

(** ** providers/base.py: the data model *)

Module base.

Definition OSLO : string := "Europe/Oslo".

Record FlightSegment : Type := mk_FlightSegment {
  from_airport : string;
  to_airport : string;
  dep_time_local : datetime;
  arr_time_local : datetime;
  duration_minutes : Z;
  flight_number : string;
  airline_code : string
}.

Record Flight : Type := mk_Flight {
  price_total : float;
  currency : string;
  airline_codes : list string;
  itinerary : list FlightSegment;
  booking_link : option string
}.

(** [dt.replace(tzinfo=ZoneInfo("Europe/Oslo"))] when [dt.tzinfo is None]. *)
Definition attach_oslo (dt : datetime) : datetime :=
  match tzinfo dt with
  | None => mk_datetime (dt_date dt) (dt_time dt) (Some OSLO)
  | Some _ => dt
  end.

(** [FlightSegment.__post_init__] *)
Definition FlightSegment_post_init (s : FlightSegment) : FlightSegment :=
  mk_FlightSegment (from_airport s) (to_airport s)
    (attach_oslo (dep_time_local s)) (attach_oslo (arr_time_local s))
    (duration_minutes s) (flight_number s) (airline_code s).

(** The constructor call [FlightSegment(...)]: the generated [__init__]
    stores the fields and runs [__post_init__]. *)
Definition FlightSegment_new (from_ap to_ap : string) (dep arr : datetime)
    (dur : Z) (number code : string) : FlightSegment :=
  FlightSegment_post_init (mk_FlightSegment from_ap to_ap dep arr dur number code).

(** [list(set(segment.airline_code for segment in itinerary))]: the
    elements of the set, each once, in the order the set yields them. *)
Definition segment_code_set (segs : list FlightSegment) : gset string :=
  list_to_set (map airline_code segs).

(** [Flight.__post_init__] *)
Definition Flight_post_init (f : Flight) : Flight :=
  match airline_codes f, itinerary f with
  | [], _ :: _ =>
      mk_Flight (price_total f) (currency f)
        (elements (segment_code_set (itinerary f)))
        (itinerary f) (booking_link f)
  | _, _ => f
  end.

(** The constructor call [Flight(...)]. *)
Definition Flight_new (price : float) (cur : string) (codes : list string)
    (segs : list FlightSegment) (link : option string) : Flight :=
  Flight_post_init (mk_Flight price cur codes segs link).

End base.
Export base.

(** ** travel_app.py *)

Module travel_app.

(** *** [filter_flights] *)

(** [any(code in airline_set for code in f.airline_codes)] *)
Definition airline_pred (airline_set : gset string) (f : Flight) : bool :=
  existsb (fun code => bool_decide (code ∈ airline_set)) (airline_codes f).

(** [f.price_total <= max_price] *)
Definition price_pred (max_price : float) (f : Flight) : bool :=
  PrimFloat.leb (price_total f) max_price.

(** [f.itinerary and start_time <= f.itinerary[0].dep_time_local.time() <= end_time] *)
Definition time_pred (start_time end_time : time) (f : Flight) : bool :=
  match itinerary f with
  | [] => false
  | s :: _ =>
      time_le start_time (dt_time (dep_time_local s))
      && time_le (dt_time (dep_time_local s)) end_time
  end.

(** [f.itinerary and start_date <= f.itinerary[0].dep_time_local.date() <= end_date] *)
Definition date_range_pred (start_date end_date : date) (f : Flight) : bool :=
  match itinerary f with
  | [] => false
  | s :: _ =>
      date_le start_date (dt_date (dep_time_local s))
      && date_le (dt_date (dep_time_local s)) end_date
  end.

(** [f.itinerary and f.itinerary[0].dep_time_local.date() == start_date] *)
Definition single_date_pred (start_date : date) (f : Flight) : bool :=
  match itinerary f with
  | [] => false
  | s :: _ => date_eq (dt_date (dep_time_local s)) start_date
  end.

(** [set(code.upper() for code in airlines)] *)
Definition airline_set_of (airlines : list string) : gset string :=
  list_to_set (map upper airlines).

(** [filter_flights(flights, airlines, max_price, dep_time_between, dates)].
    [if airlines:] is false for [None] and for the empty list;
    [if dep_time_between:] and [if dates:] test two-element tuples and
    [if end_date:] a [date], which are false only for [None]. *)
Definition filter_flights (flights : list Flight)
    (airlines : option (list string)) (max_price : option float)
    (dep_time_between : option (time * time))
    (dates : option (date * option date)) : list Flight :=
  let filtered := flights in
  let filtered :=
    match airlines with
    | Some ((_ :: _) as airlines) =>
        let airline_set := airline_set_of airlines in
        List.filter (airline_pred airline_set) filtered
    | _ => filtered
    end in
  let filtered :=
    match max_price with
    | Some max_price => List.filter (price_pred max_price) filtered
    | None => filtered
    end in
  let filtered :=
    match dep_time_between with
    | Some (start_time, end_time) =>
        List.filter (time_pred start_time end_time) filtered
    | None => filtered
    end in
  let filtered :=
    match dates with
    | Some (start_date, Some end_date) =>
        List.filter (date_range_pred start_date end_date) filtered
    | Some (start_date, None) =>
        List.filter (single_date_pred start_date) filtered
    | None => filtered
    end in
  filtered.

(** *** [filter_flights] on a store of list objects

    The same function with Python's object identity made explicit: a
    store maps the address of a list object to its contents, the
    assignment [filtered = flights] copies an address, and every list
    comprehension allocates a new list.  Flights are never assigned to,
    so they are kept as values. *)

Definition store : Type := gmap nat (list Flight).

Definition alloc (h : store) (l : list Flight) : store * nat :=
  let r := fresh (dom h) in (<[r := l]> h, r).

(** [[f for f in filtered if p(f)]] *)
Definition listcomp (p : Flight -> bool) (st : store * nat) : store * nat :=
  let '(h, filtered) := st in
  match h !! filtered with
  | Some l => alloc h (List.filter p l)
  | None => st
  end.

Definition filter_flights_st (h : store) (flights : nat)
    (airlines : option (list string)) (max_price : option float)
    (dep_time_between : option (time * time))
    (dates : option (date * option date)) : store * nat :=
  let st := (h, flights) in
  let st :=
    match airlines with
    | Some ((_ :: _) as airlines) =>
        listcomp (airline_pred (airline_set_of airlines)) st
    | _ => st
    end in
  let st :=
    match max_price with
    | Some max_price => listcomp (price_pred max_price) st
    | None => st
    end in
  let st :=
    match dep_time_between with
    | Some (start_time, end_time) => listcomp (time_pred start_time end_time) st
    | None => st
    end in
  let st :=
    match dates with
    | Some (start_date, Some end_date) =>
        listcomp (date_range_pred start_date end_date) st
    | Some (start_date, None) => listcomp (single_date_pred start_date) st
    | None => st
    end in
  st.

(** *** [parse_time_window] *)

(** What the program writes with [typer.echo] or hands to [tabulate],
    one constructor per call site. *)
Inductive message : Type :=
| ErrInvalidTimeWindow (raw : string)
  (* stderr: "ERROR: Invalid time window format: {raw}. Use HH:MM-HH:MM" *)
| WarnNoApiKey (provider_name : string)
  (* stderr: "WARNING: No API key found for {name}, falling back to MOCK provider" *)
| ErrNoDate
  (* stderr: "ERROR: Please specify either --date or --date-range" *)
| ErrBothDates
  (* stderr: "ERROR: Please specify either --date or --date-range, not both" *)
| ErrInvalidDate
  (* stderr: "ERROR: Invalid date format: {e}" *)
| InfoSearching (class_name : string)
  (* "Searching flights using {class_name}..." *)
| InfoFound (n total : nat)
  (* "Found {n} flights (from {total} total)" *)
| ErrSearching (e : exn)
  (* stderr: "ERROR: Error searching flights: {e}" *)
| InfoNoFlights
  (* "No flights found matching your criteria." *)
| Table (rows : list Flight)
  (* the grid [tabulate] renders, one row per flight of [rows] *).

(** A computation that echoes messages and returns or raises. *)
Definition io (A : Type) : Type := (list message * result A)%type.

Definition ret {A} (a : A) : io A := ([], Ok a).
Definition raise {A} (e : exn) : io A := ([], Raise e).
Definition echo (m : message) : io unit := ([m], Ok tt).
Definition lift {A} (r : result A) : io A := ([], r).

Definition io_bind {A B} (c : io A) (k : A -> io B) : io B :=
  match c with
  | (out, Ok a) => let '(out', r) := k a in (app out out', r)
  | (out, Raise e) => (out, Raise e)
  end.

Notation "'do' x <- c ;; k" := (io_bind c (fun x => k))
  (at level 10, x name, c at level 99, k at level 200).
Notation "c ;;; k" := (io_bind c (fun _ => k))
  (at level 100, k at level 200, right associativity).

(** [a, b = xs]: unpacking into exactly two names. *)
Definition unpack2 {A} (xs : list A) : result (A * A) :=
  match xs with
  | [a; b] => Ok (a, b)
  | _ => Raise ValueError
  end.

(** The body of the [try] block of [parse_time_window]. *)
Definition parse_time_window_body (time_window : string) : result (time * time) :=
  bind (unpack2 (split "-" time_window)) (fun '(start_str, end_str) =>
  bind (bind (map_int (split ":" start_str)) unpack2) (fun '(start_hour, start_min) =>
  bind (bind (map_int (split ":" end_str)) unpack2) (fun '(end_hour, end_min) =>
  bind (time_ctor start_hour start_min) (fun t1 =>
  bind (time_ctor end_hour end_min) (fun t2 =>
  Ok (t1, t2)))))).

(** [parse_time_window(time_window)]; [if not time_window] holds for
    [None] and for the empty string. *)
Definition parse_time_window (time_window : option string)
  : io (option (time * time)) :=
  match time_window with
  | None => ret None
  | Some EmptyString => ret None
  | Some tw =>
      match parse_time_window_body tw with
      | Ok w => ret (Some w)
      | Raise ValueError => echo (ErrInvalidTimeWindow tw) ;;; raise (Exit 1)
      | Raise e => raise e
      end
  end.

(** *** [normalize_airline_codes] *)

Definition is_upper (c : ascii) : bool :=
  let n := nat_of_ascii c in (65 <=? n)%nat && (n <=? 90)%nat.

Definition lower_char (c : ascii) : ascii :=
  if is_upper c then ascii_of_nat (nat_of_ascii c + 32) else c.

(** [str.lower()] on ASCII text. *)
Fixpoint lower (s : string) : string :=
  match s with
  | EmptyString => EmptyString
  | String c s' => String (lower_char c) (lower s')
  end.

(** [sub in s] *)
Fixpoint contains (sub s : string) : bool :=
  String.prefix sub s
  || match s with
     | EmptyString => false
     | String _ s' => contains sub s'
     end.

(** [AIRLINE_CODES], in insertion order. *)
Definition AIRLINE_CODES : list (string * string) :=
  [ ("QR", "Qatar Airways"); ("QF", "Qantas"); ("BA", "British Airways");
    ("EK", "Emirates"); ("SK", "SAS"); ("SQ", "Singapore Airlines");
    ("AY", "Finnair"); ("SAS", "SAS") ].

(** [d[k] = v] on an insertion-ordered dict: a present key keeps its
    place and takes the new value. *)
Fixpoint dict_set (d : list (string * string)) (k v : string)
  : list (string * string) :=
  match d with
  | [] => [(k, v)]
  | (k', v') :: d' =>
      if String.eqb k' k then (k, v) :: d' else (k', v') :: dict_set d' k v
  end.

(** [{v.lower(): k for k, v in AIRLINE_CODES.items()}] *)
Definition AIRLINE_NAMES_TO_CODES : list (string * string) :=
  fold_left (fun d '(k, v) => dict_set d (lower v) k) AIRLINE_CODES [].

Definition dict_has_key (d : list (string * string)) (k : string) : bool :=
  existsb (fun '(k', _) => String.eqb k' k) d.

(** The [for name, code in ...: if ...: ...; break / else: ...] loop. *)
Definition code_for (airline : string) : string :=
  match List.find (fun '(name, _) => contains (lower airline) name)
                  AIRLINE_NAMES_TO_CODES with
  | Some (_, code) => code
  | None => airline
  end.

Definition normalize_airline_codes (airlines : option string)
  : option (list string) :=
  match airlines with
  | None => None
  | Some EmptyString => None
  | Some airlines =>
      Some (map (fun airline =>
                   let airline := upper (strip airline) in
                   if dict_has_key AIRLINE_CODES airline then airline
                   else code_for airline)
                (split "," airlines))
  end.

(** *** [get_provider] *)

Inductive provider : Type :=
| KiwiProvider (api_key : string)
| AmadeusProvider (api_key : string)
| SkyscannerProvider (api_key : string)
| MockProvider.

Definition class_name (p : provider) : string :=
  match p with
  | KiwiProvider _ => "KiwiProvider"
  | AmadeusProvider _ => "AmadeusProvider"
  | SkyscannerProvider _ => "SkyscannerProvider"
  | MockProvider => "MockProvider"
  end.

(** The process environment, [os.environ]. *)
Definition environ : Type := gmap string string.

(** [os.getenv("PROVIDER", "MOCK").upper()] *)
Definition PROVIDER_NAME (env : environ) : string :=
  upper (default "MOCK" (env !! "PROVIDER")).

(** [os.getenv(k)] where it is used as a condition: set and not empty. *)
Definition getenv_truthy (env : environ) (k : string) : option string :=
  match env !! k with
  | Some EmptyString => None
  | o => o
  end.

Definition get_provider (env : environ) : io provider :=
  let name := PROVIDER_NAME env in
  match String.eqb name "KIWI", getenv_truthy env "KIWI_API_KEY" with
  | true, Some k => ret (KiwiProvider k)
  | _, _ =>
  match String.eqb name "AMADEUS", getenv_truthy env "AMADEUS_API_KEY" with
  | true, Some k => ret (AmadeusProvider k)
  | _, _ =>
  match String.eqb name "SKYSCANNER", getenv_truthy env "SKYSCANNER_API_KEY" with
  | true, Some k => ret (SkyscannerProvider k)
  | _, _ =>
      (if negb (String.eqb name "MOCK") then echo (WarnNoApiKey name) else ret tt) ;;;
      ret MockProvider
  end end end.

(** *** [display_flights]: sorting *)

(** [list.sort(key=...)]: the keys are computed first, then the list is
    sorted by [<] on the keys, stably; an exception raised by [<] ends
    the sort and propagates.  The sort is modelled as the insertion sort
    CPython runs (with a binary search) on lists shorter than 64
    elements: every comparison is [later < earlier] for a later and an
    earlier element of the list, and only the choice of the earlier
    elements probed differs.  [prefix] is the sorted prefix, largest
    first. *)
Fixpoint insert_sorted {K A} (lt : K -> K -> result bool) (x : K * A)
    (prefix : list (K * A)) : result (list (K * A)) :=
  match prefix with
  | [] => Ok [x]
  | y :: ys =>
      bind (lt (fst x) (fst y)) (fun b =>
        if b then bind (insert_sorted lt x ys) (fun r => Ok (y :: r))
        else Ok (x :: prefix))
  end.

Fixpoint sort_loop {K A} (lt : K -> K -> result bool) (todo : list (K * A))
    (prefix : list (K * A)) : result (list (K * A)) :=
  match todo with
  | [] => Ok prefix
  | x :: todo' => bind (insert_sorted lt x prefix) (sort_loop lt todo')
  end.

Definition list_sort {K A} (lt : K -> K -> result bool) (key : A -> K)
    (l : list A) : result (list A) :=
  bind (sort_loop lt (map (fun a => (key a, a)) l) [])
       (fun r => Ok (map snd (rev r))).

Section World.

(** The time-zone database: [utcoffset zone dt] is the offset from UTC,
    in microseconds, of [zone] at the wall-clock reading [dt]. *)
Variable utcoffset : string -> datetime -> Z.

(** [datetime.strptime(s, "%Y-%m-%d").date()] *)
Variable strptime_ymd : string -> result date.

(** The flights [MockProvider.search_flights] builds from its data file. *)
Variable mock_dataset : list Flight.

Definition utcoffset_of (d : datetime) : option Z :=
  match tzinfo d with
  | None => None
  | Some z => Some (utcoffset z d)
  end.

(** [mytz is ottz] *)
Definition same_tzinfo (a b : datetime) : bool :=
  match tzinfo a, tzinfo b with
  | None, None => true
  | Some za, Some zb => String.eqb za zb
  | _, _ => false
  end.

(** [a < b] on datetimes. *)
Definition datetime_lt (a b : datetime) : result bool :=
  if same_tzinfo a b then Ok (is_lt (naive_cmp a b))
  else
    match utcoffset_of a, utcoffset_of b with
    | Some myoff, Some otoff =>
        if myoff =? otoff then Ok (is_lt (naive_cmp a b))
        else Ok (wall_micros a - myoff <? wall_micros b - otoff)
    | _, _ => Raise TypeError
    end.

(** [lambda f: f.price_total] *)
Definition price_key (f : Flight) : float := price_total f.

(** [lambda f: sum(s.duration_minutes for s in f.itinerary)] *)
Definition duration_key (f : Flight) : Z :=
  fold_left Z.add (map duration_minutes (itinerary f)) 0.

(** [lambda f: f.itinerary[0].dep_time_local if f.itinerary else datetime.min] *)
Definition departure_key (f : Flight) : datetime :=
  match itinerary f with
  | s :: _ => dep_time_local s
  | [] => datetime_min
  end.

(** The [# Sort flights] step of [display_flights]: the contents of the
    list after [flights.sort(...)]. *)
Definition sort_flights (flights : list Flight) (sort_by : string)
  : result (list Flight) :=
  if String.eqb sort_by "price" then
    list_sort (fun a b => Ok (PrimFloat.ltb a b)) price_key flights
  else if String.eqb sort_by "duration" then
    list_sort (fun a b => Ok (a <? b)) duration_key flights
  else if String.eqb sort_by "departure" then
    list_sort datetime_lt departure_key flights
  else Ok flights.

Definition has_itinerary (f : Flight) : bool :=
  match itinerary f with [] => false | _ :: _ => true end.

(** [display_flights(flights, sort_by)]; the value returned is the
    contents of the list object [flights] afterwards. *)
Definition display_flights (flights : list Flight) (sort_by : string)
  : io (list Flight) :=
  match flights with
  | [] => echo InfoNoFlights ;;; ret []
  | _ =>
      do sorted <- lift (sort_flights flights sort_by) ;;
      echo (Table (List.filter has_itinerary sorted)) ;;;
      ret sorted
  end.

(** *** [search] *)

Record search_params : Type := mk_search_params {
  sp_from_airport : string;
  sp_to_airport : string;
  sp_departure_date : date;
  sp_return_date : option date;
  sp_adults : Z;
  sp_cabin : string
}.

(** The answer of the Kiwi web service, mapped to flights or raised as
    an exception, for a key and a request. *)
Variable kiwi_api : string -> search_params -> result (list Flight).

(** [provider.search_flights(params)], by class. *)
Definition search_flights (p : provider) (params : search_params)
  : result (list Flight) :=
  match p with
  | MockProvider => Ok mock_dataset
  | KiwiProvider k => kiwi_api k params
  | AmadeusProvider _ => Raise NotImplementedError
  | SkyscannerProvider _ => Raise NotImplementedError
  end.

Definition parse_date_range (date_input : string)
  : result (date * option date) :=
  if contains ":" date_input then
    bind (unpack2 (split ":" date_input)) (fun '(start_str, end_str) =>
    bind (strptime_ymd start_str) (fun start_date =>
    bind (strptime_ymd end_str) (fun end_date =>
    Ok (start_date, Some end_date))))
  else
    bind (strptime_ymd date_input) (fun single_date => Ok (single_date, None)).

Record search_options : Type := mk_search_options {
  opt_from : string;
  opt_to : string;
  opt_date : option string;
  opt_date_range : option string;
  opt_adults : Z;
  opt_cabin : string;
  opt_max_price : option float;
  opt_airlines : option string;
  opt_dep_window : option string;
  opt_sort : string
}.

(** Truthiness of an optional string. *)
Definition given (o : option string) : option string :=
  match o with
  | Some EmptyString => None
  | _ => o
  end.

Definition search (env : environ) (o : search_options) : io unit :=
  match given (opt_date o), given (opt_date_range o) with
  | None, None => echo ErrNoDate ;;; raise (Exit 1)
  | Some _, Some _ => echo ErrBothDates ;;; raise (Exit 1)
  | Some d, None | None, Some d =>
      match parse_date_range d with
      | Raise ValueError => echo ErrInvalidDate ;;; raise (Exit 1)
      | Raise e => raise e
      | Ok dates =>
          let airline_codes := normalize_airline_codes (opt_airlines o) in
          do time_window <- parse_time_window (opt_dep_window o) ;;
          do provider <- get_provider env ;;
          echo (InfoSearching (class_name provider)) ;;;
          let params :=
            mk_search_params (opt_from o) (opt_to o) (fst dates) (snd dates)
                             (opt_adults o) (opt_cabin o) in
          let body :=
            do flights <- lift (search_flights provider params) ;;
            let filtered_flights :=
              filter_flights flights airline_codes (opt_max_price o)
                             time_window (Some dates) in
            echo (InfoFound (List.length filtered_flights) (List.length flights)) ;;;
            display_flights filtered_flights (opt_sort o) ;;;
            ret tt in
          match body with
          | (out, Raise e) => (out, Ok tt) ;;; echo (ErrSearching e) ;;; raise (Exit 1)
          | r => r
          end
      end
  end.

End World.

End travel_app.
Export travel_app.

(** ** app_streamlit_new.py: the Amadeus adapter *)

Module app_streamlit_new.






(** [a - b] on datetimes without [tzinfo], as [_parse_dt] returns them:
    a [timedelta], in microseconds. *)
Definition naive_sub (a b : datetime) : Z := wall_micros a - wall_micros b.



End app_streamlit_new.
Export app_streamlit_new.

(** ** tests/test_filters.py: the sample data *)

Module test_filters.

(** [int(td.total_seconds() / 60)]: whole minutes, rounded towards zero. *)
Definition trunc_minutes (td : Z) : Z := Z.quot td 60000000.

(** [datetime(y, mo, d, h, mi)] *)
Definition dt (y mo d h mi : Z) : datetime :=
  mk_datetime (mk_date y mo d) (mk_time h mi 0 0) None.

(** [dt.replace(tzinfo=OSLO_TZ)] *)
Definition in_oslo (t : datetime) : datetime :=
  mk_datetime (dt_date t) (dt_time t) (Some OSLO).

Definition create_test_flight (price : float) (cur : string)
    (codes : list string) (dep_time arr_time : datetime) : Flight :=
  let segment :=
    FlightSegment_new "OSL" "PER" (in_oslo dep_time) (in_oslo arr_time)
      (trunc_minutes (naive_sub arr_time dep_time)) "TEST123"
      (match codes with c :: _ => c | [] => "XX" end) in
  Flight_new price cur codes [segment] None.

Definition sample_flights : list Flight :=
  [ create_test_flight 8950 "NOK" ["QR"] (dt 2025 12 10 7 30) (dt 2025 12 11 17 30);
    create_test_flight 11200 "NOK" ["EK"] (dt 2025 12 10 9 15) (dt 2025 12 11 17 15);
    create_test_flight 9750 "NOK" ["SQ"] (dt 2025 12 10 6 45) (dt 2025 12 11 13 30);
    create_test_flight 10800 "NOK" ["BA"] (dt 2025 12 10 14 20) (dt 2025 12 12 3 15);
    create_test_flight 9100 "NOK" ["SK"] (dt 2025 12 10 15 45) (dt 2025 12 11 22 45);
    create_test_flight 8500 "NOK" ["QR"] (dt 2025 12 11 8 0) (dt 2025 12 12 18 0) ].

End test_filters.
Export test_filters.

(** ** Definitions used to state the properties *)

Module props.







(** [c] occurs in [s]. *)
Fixpoint has_char (c : ascii) (s : string) : bool :=
  match s with
  | EmptyString => false
  | String c' s' => Ascii.eqb c' c || has_char c s'
  end.




(** [sep.join(l)] *)
Fixpoint join (sep : ascii) (l : list string) : string :=
  match l with
  | [] => EmptyString
  | [x] => x
  | x :: l' => x ++ String sep (join sep l')
  end.

(** A datetime with [tzinfo]. *)
Definition aware (d : datetime) : bool :=
  match tzinfo d with
  | Some _ => true
  | None => false
  end.

(** What [FlightSegment.__post_init__] establishes for the departure
    of every segment of a flight. *)
Definition departures_aware (f : Flight) : Prop :=
  Forall (fun s => aware (dep_time_local s) = true) (itinerary f).

(** The credentials the selected provider needs, when it needs any and
    they are set. *)
Definition selected_credentials (env : environ) : option string :=
  let name := PROVIDER_NAME env in
  if String.eqb name "KIWI" then getenv_truthy env "KIWI_API_KEY"
  else if String.eqb name "AMADEUS" then getenv_truthy env "AMADEUS_API_KEY"
  else if String.eqb name "SKYSCANNER" then getenv_truthy env "SKYSCANNER_API_KEY"
  else None.

(** The provider class a name stands for, given its credentials. *)
Definition provider_for (name key : string) : provider :=
  if String.eqb name "KIWI" then KiwiProvider key
  else if String.eqb name "AMADEUS" then AmadeusProvider key
  else SkyscannerProvider key.

(** Lexicographic combination of two comparisons. *)
Definition lex (c1 c2 : comparison) : comparison :=
  match c1 with
  | Eq => c2
  | Lt => Lt
  | Gt => Gt
  end.

(** A comparison function that behaves as the comparison of a total
    preorder. *)
Record order_cmp {T} (cmp : T -> T -> comparison) : Prop := mk_order_cmp {
  cmp_opp : forall a b, cmp b a = CompOpp (cmp a b);
  cmp_eq : forall a b c, cmp a b = Eq -> cmp a c = cmp b c;
  cmp_lt : forall a b c, cmp a b = Lt -> cmp b c = Lt -> cmp a c = Lt
}.

(** [l] is in ascending order of [key]: no element is below an element
    that comes before it. *)
Definition ascending {A K} (ltb : K -> K -> bool) (key : A -> K)
    (l : list A) : Prop :=
  StronglySorted (fun a b => ltb (key b) (key a) = false) l.

(** The first segment of [f] departs in zone [z]. *)
Definition departs_in (z : string) (f : Flight) : Prop :=
  exists s rest, itinerary f = s :: rest /\ tzinfo (dep_time_local s) = Some z.

End props.
Export props.

(** ** Further definitions used to state properties *)

Module props_filter.

(** The conjunction of the criteria that are given: what one flight has
    to satisfy to pass [filter_flights]. *)
Definition keeps (airlines : option (list string)) (max_price : option float)
    (dep_time_between : option (time * time))
    (dates : option (date * option date)) (f : Flight) : bool :=
  match airlines with
  | Some ((_ :: _) as airlines) => airline_pred (airline_set_of airlines) f
  | _ => true
  end
  && match max_price with
     | Some max_price => price_pred max_price f
     | None => true
     end
  && match dep_time_between with
     | Some (start_time, end_time) => time_pred start_time end_time f
     | None => true
     end
  && match dates with
     | Some (start_date, Some end_date) => date_range_pred start_date end_date f
     | Some (start_date, None) => single_date_pred start_date f
     | None => true
     end.

(** The time of day at which [f] leaves, when it has a segment. *)
Definition departure_time (f : Flight) : option time :=
  match itinerary f with
  | s :: _ => Some (dt_time (dep_time_local s))
  | [] => None
  end.

(** The calendar date on which [f] leaves, when it has a segment. *)
Definition departure_date (f : Flight) : option date :=
  match itinerary f with
  | s :: _ => Some (dt_date (dep_time_local s))
  | [] => None
  end.

(** The code that stands for one token of the option. *)
Definition token_code (token : string) : string :=
  let airline := upper (strip token) in
  if dict_has_key AIRLINE_CODES airline then airline else code_for airline.

(** A token of white space only, the empty token among them. *)
Fixpoint blank (s : string) : bool :=
  match s with
  | EmptyString => true
  | String c s' => is_space c && blank s'
  end.

End props_filter.
Export props_filter.

Module props_sort.

(** A place for a binary64 number in the order of the numbers: its
    class (minus infinity, negative, zero, positive, plus infinity),
    then exponent and mantissa, counted downwards for negative numbers.
    [NaN], which is not ordered, is put below everything. *)
Definition float_rank (x : spec_float) : Z * Z * Z :=
  match x with
  | S754_nan => (-3, 0, 0)
  | S754_infinity true => (-2, 0, 0)
  | S754_finite true m e => (-1, - e, Zneg m)
  | S754_zero _ => (0, 0, 0)
  | S754_finite false m e => (1, e, Zpos m)
  | S754_infinity false => (2, 0, 0)
  end.

Definition rank_cmp (a b : Z * Z * Z) : comparison :=
  lex (a.1.1 ?= b.1.1) (lex (a.1.2 ?= b.1.2) (a.2 ?= b.2)).

(** [a < b] read off the places of two binary64 numbers. *)
Definition float_rank_ltb (a b : float) : bool :=
  is_lt (rank_cmp (float_rank (Prim2SF a)) (float_rank (Prim2SF b))).

End props_sort.
Export props_sort.

Module props_search.

(** The messages that report an error. *)
Definition is_error (m : message) : bool :=
  match m with
  | ErrInvalidTimeWindow _ | ErrNoDate | ErrBothDates | ErrInvalidDate
  | ErrSearching _ => true
  | _ => false
  end.

(** What [display_flights] prints for a list that comes out of the sort
    as [sorted]. *)
Definition shown (flights sorted : list Flight) : list message :=
  match flights with
  | [] => [InfoNoFlights]
  | _ => [Table (List.filter has_itinerary sorted)]
  end.

(** Every flight has a first segment, and its departure carries a zone. *)
Definition sortable_by_departure (flights : list Flight) : Prop :=
  Forall (fun f => itinerary f <> [] /\ departures_aware f) flights.

End props_search.
Export props_search.

(** ** travel_app.py: formatting *)

From Stdlib Require DecimalString DecimalZ DecimalPos.

Module formatting.

(** [str(n)] for an [int]: the decimal digits, after a minus sign for a
    negative number. *)
Definition str (n : Z) : string :=
  DecimalString.NilZero.string_of_int (Z.to_int n).

(** [format_duration(minutes)]: [//] and [%] round towards minus
    infinity, as [/] and [mod] of [Z] do for the divisor 60. *)
Definition format_duration (minutes : Z) : string :=
  let hours := minutes / 60 in
  let mins := minutes mod 60 in
  str hours ++ "h " ++ str mins ++ "m".

(** [format_stops(segments)] *)
Definition format_stops (segments : list FlightSegment) : string :=
  let stops := Z.of_nat (List.length segments) - 1 in
  if stops =? 0 then "non-stop"
  else if stops =? 1 then "1 stop"
  else str stops ++ " stops".

End formatting.
Export formatting.

(** ** Cabin classes: app_streamlit_new.py and providers/kiwi.py *)

Module cabin.

(** [mapping.get(key, default)] *)
Fixpoint dict_get (mapping : list (string * string)) (key default : string)
  : string :=
  match mapping with
  | [] => default
  | (k, v) :: mapping' =>
      if String.eqb k key then v else dict_get mapping' key default
  end.

(** [_amadeus_travel_class(cabin)] of app_streamlit_new.py *)
Definition _amadeus_travel_class (cabin : string) : string :=
  let mapping :=
    [ ("economy", "ECONOMY"); ("premium_economy", "PREMIUM_ECONOMY");
      ("business", "BUSINESS"); ("first", "FIRST") ] in
  dict_get mapping (lower cabin) "ECONOMY".

(** [KiwiProvider._map_cabin_class(cabin)] of providers/kiwi.py *)
Definition _map_cabin_class (cabin : string) : string :=
  let mapping :=
    [ ("economy", "M"); ("premium_economy", "W");
      ("business", "C"); ("first", "F") ] in
  dict_get mapping (lower cabin) "M".

(** The cabin classes the program knows. *)
Definition CABINS : list string :=
  ["economy"; "premium_economy"; "business"; "first"].

End cabin.
Export cabin.

Module props_format.

(** The text [format_stops] gives for an itinerary of [n] segments. *)
Definition stops_text (n : nat) : string :=
  match n with
  | 1%nat => "non-stop"
  | 2%nat => "1 stop"
  | _ => str (Z.of_nat n - 1) ++ " stops"
  end.

(** A text that does not begin with white space. *)
Definition no_space_head (s : string) : Prop :=
  match s with
  | EmptyString => True
  | String c _ => is_space c = false
  end.

End props_format.
Export props_format.

(** ** app_streamlit_new.py: timestamps of the Amadeus adapter *)

Module amadeus_adapter.



Section Parse.

(** [datetime.fromisoformat] *)
Variable fromisoformat : string -> result datetime.



End Parse.

End amadeus_adapter.
Export amadeus_adapter.

(** * Properties *)

(** ** Filtering *)

Lemma list_filter_sublist {A} (p : A -> bool) (l : list A) :
  List.filter p l `sublist_of` l.
Proof.
  induction l as [|x l IH]; simpl.
  - constructor.
  - destruct (p x).
    + by apply sublist_skip.
    + by apply sublist_cons.
Qed.

Lemma filter_flights_sublist flights airlines max_price window dates :
  filter_flights flights airlines max_price window dates `sublist_of` flights.
Proof.
  unfold filter_flights.
  destruct airlines as [[|a airlines]|], max_price as [mp|],
    window as [[t1 t2]|], dates as [[d1 [d2|]]|];
    repeat first [ reflexivity
                 | etrans; [apply list_filter_sublist|] ].
Qed.

(** What a step of the filter does to the store: [step] reads the list
    at its address, leaves a list holding [g] of it at the address it
    returns, and keeps every list the store held. *)
Definition step_ok (step : store * nat -> store * nat)
    (g : list Flight -> list Flight) : Prop :=
  forall st l, st.1 !! st.2 = Some l ->
    (step st).1 !! (step st).2 = Some (g l) /\ st.1 ⊆ (step st).1.

Lemma step_ok_id : step_ok (fun st => st) (fun l => l).
Proof. intros st l H. split; [exact H | reflexivity]. Qed.

Lemma step_ok_listcomp p : step_ok (listcomp p) (List.filter p).
Proof.
  intros [h r] l H. simpl in H. unfold listcomp. rewrite H.
  unfold alloc. simpl. split.
  - apply lookup_insert_eq.
  - apply insert_subseteq, not_elem_of_dom, is_fresh.
Qed.

Lemma step_ok_compose s1 g1 s2 g2 :
  step_ok s1 g1 -> step_ok s2 g2 ->
  step_ok (fun st => s2 (s1 st)) (fun l => g2 (g1 l)).
Proof.
  intros H1 H2 st l H.
  destruct (H1 st l H) as [Hr1 Hsub1].
  destruct (H2 (s1 st) (g1 l) Hr1) as [Hr2 Hsub2].
  split; [exact Hr2 | by etrans].
Qed.

#[local] Arguments listcomp : simpl never.

Lemma filter_flights_st_ok airlines max_price window dates :
  step_ok (fun st => filter_flights_st st.1 st.2 airlines max_price window dates)
          (fun l => filter_flights l airlines max_price window dates).
Proof.
  unfold filter_flights_st, filter_flights.
  destruct airlines as [[|a airlines]|], max_price as [mp|],
    window as [[t1 t2]|], dates as [[d1 [d2|]]|];
    intros [h r] l H; simpl in H; simpl;
    repeat match goal with
    | |- context [listcomp ?p (?h0, ?r0)] =>
        lazymatch goal with
        | Hr : h0 !! r0 = Some ?l0 |- _ =>
            let Hn := fresh "Hr" in
            let Hs := fresh "Hs" in
            destruct (step_ok_listcomp p (h0, r0) l0 Hr) as [Hn Hs];
            destruct (listcomp p (h0, r0)) as [? ?]; simpl in Hn, Hs
        end
    end;
    simpl; (split; [assumption | repeat (etrans; [eassumption|]); reflexivity]).
Qed.

(** C1: with no criterion given, [filter_flights] returns its input
    list unchanged; on the store it returns the address it was given and
    allocates nothing. *)
Theorem filter_flights_no_criteria (fs : list Flight) :
  filter_flights fs None None None None = fs
  /\ (forall (h : store) (r : nat),
        filter_flights_st h r None None None None = (h, r)).
Proof. split; reflexivity. Qed.

(** C10: for every input list and every combination of criteria the
    result of [filter_flights] is a subsequence of the input (its
    flights are flights of the input, in the input's order, and a list
    without repetition stays without repetition), and on the store the
    call leaves every existing list object, the input list among them,
    with the contents it had; flights are values that the call has no
    means to change. *)
Theorem filter_flights_subsequence (h : store) (r : nat) (fs : list Flight)
    airlines max_price window dates :
  h !! r = Some fs ->
  let out := filter_flights fs airlines max_price window dates in
  let st' := filter_flights_st h r airlines max_price window dates in
  out `sublist_of` fs
  /\ (forall f, In f out -> In f fs)
  /\ (NoDup fs -> NoDup out)
  /\ st'.1 !! st'.2 = Some out
  /\ st'.1 !! r = Some fs
  /\ (forall r0 l0, h !! r0 = Some l0 -> st'.1 !! r0 = Some l0).
Proof.
  intros Hr out st'.
  pose proof (filter_flights_sublist fs airlines max_price window dates) as Hsub.
  destruct (filter_flights_st_ok airlines max_price window dates (h, r) fs Hr)
    as [Hread Hkeep]; simpl in Hread, Hkeep.
  assert (Hold : forall r0 l0, h !! r0 = Some l0 -> st'.1 !! r0 = Some l0).
  { intros r0 l0 H0. eapply lookup_weaken; [exact H0 | exact Hkeep]. }
  repeat split.
  - exact Hsub.
  - intros f Hin. apply list_elem_of_In. eapply elem_of_sublist; [|exact Hsub].
    by apply list_elem_of_In.
  - intros Hnd. eapply sublist_NoDup; [exact Hnd | exact Hsub].
  - exact Hread.
  - by apply Hold.
  - exact Hold.
Qed.

Lemma filter_flights_subsequence_witness :
  let h : store := {[ 0%nat := sample_flights ]} in
  let out := filter_flights sample_flights (Some ["QR"]) (Some 9000%float) None None in
  let st' := filter_flights_st h 0%nat (Some ["QR"]) (Some 9000%float) None None in
  out `sublist_of` sample_flights
  /\ (forall f, In f out -> In f sample_flights)
  /\ (NoDup sample_flights -> NoDup out)
  /\ st'.1 !! st'.2 = Some out
  /\ st'.1 !! 0%nat = Some sample_flights
  /\ (forall r0 l0, h !! r0 = Some l0 -> st'.1 !! r0 = Some l0).
Proof.
  apply (filter_flights_subsequence {[ 0%nat := sample_flights ]} 0%nat
           sample_flights (Some ["QR"]) (Some 9000%float) None None).
  reflexivity.
Defined.

(** The airline step keeps the flights that carry a code of the
    upper-cased filter list. *)
Lemma airline_pred_true airlines f :
  airline_pred (airline_set_of airlines) f = true <->
  exists code a, In code (airline_codes f) /\ In a airlines /\ code = upper a.
Proof.
  unfold airline_pred, airline_set_of. rewrite existsb_exists. split.
  - intros (code & Hin & Hdec). apply bool_decide_eq_true in Hdec.
    apply elem_of_list_to_set, list_elem_of_In, in_map_iff in Hdec.
    destruct Hdec as (a & Ha & Hin'). exists code, a. by repeat split.
  - intros (code & a & Hin & Ha & ->). exists (upper a). split; [exact Hin|].
    apply bool_decide_eq_true, elem_of_list_to_set, list_elem_of_In, in_map_iff.
    by exists a.
Qed.

(** C3: the airline filter is an intersection test, not a subset test.
    For a filter list in upper case, as the callers pass it, every
    flight of the input that carries one of the filter's codes is kept,
    and when the list holds a code the flights kept are exactly those;
    a flight with the codes QR and EK passes a filter of EK alone. *)
Theorem airline_filter_intersects (flights : list Flight)
    (airlines : list string) (f : Flight) :
  Forall (fun c => upper c = c) airlines ->
  (In f flights ->
   (exists code, In code (airline_codes f) /\ In code airlines) ->
   In f (filter_flights flights (Some airlines) None None None))
  /\ (airlines <> [] ->
      (In f (filter_flights flights (Some airlines) None None None) <->
       In f flights /\ exists code, In code (airline_codes f) /\ In code airlines)).
Proof.
  intros Hup. rewrite Forall_forall in Hup.
  assert (Hkeep : In f flights ->
            (exists code, In code (airline_codes f) /\ In code airlines) ->
            In f (filter_flights flights (Some airlines) None None None)).
  { intros Hin (code & Hc & Ha). unfold filter_flights.
    destruct airlines as [|a0 airlines]; [exact Hin|].
    apply filter_In. split; [exact Hin|]. apply airline_pred_true.
    exists code, code. repeat split; try assumption.
    symmetry. apply Hup. by apply list_elem_of_In. }
  split; [exact Hkeep|].
  intros Hne. split; [|intros [Hin Hex]; by apply Hkeep].
  unfold filter_flights. destruct airlines as [|a0 airlines]; [done|].
  rewrite filter_In, airline_pred_true.
  intros (Hin & code & a & Hc & Ha & ->). split; [exact Hin|].
  exists (upper a). split; [exact Hc|].
  rewrite (Hup a); [exact Ha|]. by apply list_elem_of_In.
Qed.

(** A flight with the codes QR and EK passes a filter of EK alone. *)
Lemma airline_filter_intersects_witness :
  let f := mk_Flight 9000 "NOK" ["QR"; "EK"] [] None in
  In f (filter_flights [f] (Some ["EK"]) None None None).
Proof.
  intros f.
  assert (Hup : Forall (fun c => upper c = c) ["EK"]) by (repeat constructor).
  apply (proj1 (airline_filter_intersects [f] ["EK"] f Hup)).
  - simpl. left. reflexivity.
  - exists "EK". simpl. split; [right; left; reflexivity | left; reflexivity].
Defined.

Example airline_filter_QR_EK (f : Flight) :
  airline_codes f = ["QR"; "EK"] ->
  filter_flights [f] (Some ["EK"]) None None None = [f].
Proof.
  intros H. unfold filter_flights. simpl.
  replace (airline_pred (airline_set_of ["EK"]) f) with true; [reflexivity|].
  symmetry. apply airline_pred_true. exists "EK", "EK". rewrite H.
  repeat split; simpl; auto.
Qed.

(** C6: on the six sample flights, the filter for airline QR, at most
    9000, departure between 06:00 and 10:00, on 2025-12-10 returns one
    flight: the QR flight for 8950 that leaves at 07:30. *)
Theorem sample_scenario :
  map price_total sample_flights
    = [8950; 11200; 9750; 10800; 9100; 8500]%float
  /\ map airline_codes sample_flights
    = [["QR"]; ["EK"]; ["SQ"]; ["BA"]; ["SK"]; ["QR"]]
  /\ map (fun f => map (fun s => dt_date (dep_time_local s)) (itinerary f))
         sample_flights
    = [ [mk_date 2025 12 10]; [mk_date 2025 12 10]; [mk_date 2025 12 10];
        [mk_date 2025 12 10]; [mk_date 2025 12 10]; [mk_date 2025 12 11] ]
  /\ exists f,
      filter_flights sample_flights (Some ["QR"]) (Some 9000%float)
        (Some (mk_time 6 0 0 0, mk_time 10 0 0 0))
        (Some (mk_date 2025 12 10, None)) = [f]
      /\ price_total f = 8950%float
      /\ airline_codes f = ["QR"]
      /\ map (fun s => dt_time (dep_time_local s)) (itinerary f)
         = [mk_time 7 30 0 0].
Proof.
  repeat split.
  eexists. split; [vm_compute; reflexivity|]. repeat split.
Qed.

(** ** The price boundary, in binary64 arithmetic *)




#[local] Set Warnings "-inexact-float".




(** ** The data model *)

Lemma FlightSegment_new_aware from_ap to_ap dep arr dur number code :
  tzinfo (dep_time_local
            (FlightSegment_new from_ap to_ap dep arr dur number code)) <> None.
Proof.
  unfold FlightSegment_new, FlightSegment_post_init, attach_oslo. simpl.
  destruct (tzinfo dep) eqn:E; simpl; [by rewrite E | done].
Qed.

(** C9: a flight constructed with no airline codes and at least one
    segment gets the codes of its segments, each once, in some order;
    codes that are given are kept as they are. *)
Theorem Flight_airline_codes_derived (price : float) (cur : string)
    (codes : list string) (segs : list FlightSegment) (link : option string) :
  let f := Flight_new price cur codes segs link in
  (codes = [] -> segs <> [] ->
     NoDup (airline_codes f)
     /\ (forall c, In c (airline_codes f) <-> In c (map airline_code segs)))
  /\ (codes <> [] -> airline_codes f = codes).
Proof.
  unfold Flight_new, Flight_post_init. simpl. split.
  - intros -> Hsegs. destruct segs as [|s segs]; [done|]. simpl. split.
    + apply NoDup_elements.
    + intros c. rewrite <- !list_elem_of_In, elem_of_elements.
      unfold segment_code_set. rewrite elem_of_list_to_set.
      rewrite !list_elem_of_In. reflexivity.
  - intros Hcodes. destruct codes as [|c codes]; [done|]. reflexivity.
Qed.

Lemma Flight_airline_codes_derived_witness :
  let seg code := FlightSegment_new "OSL" "DOH" (dt 2025 12 10 7 30)
                    (dt 2025 12 10 14 0) 390 "X1" code in
  let segs := [seg "QR"; seg "EK"; seg "QR"] in
  (NoDup (airline_codes (Flight_new 8950 "NOK" [] segs None))
   /\ (forall c, In c (airline_codes (Flight_new 8950 "NOK" [] segs None))
                 <-> In c (map airline_code segs)))
  /\ airline_codes (Flight_new 8950 "NOK" ["SK"] segs None) = ["SK"].
Proof.
  intros seg segs. split.
  - apply (Flight_airline_codes_derived 8950 "NOK" [] segs None);
      [reflexivity | discriminate].
  - apply (Flight_airline_codes_derived 8950 "NOK" ["SK"] segs None).
    discriminate.
Defined.

(** ** Durations *)

#[local] Arguments is_digit : simpl never.
#[local] Arguments is_space : simpl never.
#[local] Arguments String.append !s1 s2 / : simpl nomatch.




















(** ** The time window *)


Lemma split_not_nil sep s : split sep s <> [].
Proof.
  destruct s as [|c s]; simpl; [done|].
  destruct (Ascii.eqb c sep); [done|]. by destruct (split sep s).
Qed.

Lemma split_no_sep sep s : has_char sep s = false -> split sep s = [s].
Proof.
  induction s as [|c s IH]; simpl; [reflexivity|].
  intros H. apply orb_false_iff in H as [Hc Hs]. by rewrite Hc, (IH Hs).
Qed.

Lemma split_app sep x y :
  has_char sep x = false -> split sep (x ++ String sep y) = x :: split sep y.
Proof.
  induction x as [|c x IH]; simpl.
  - intros _. by rewrite Ascii.eqb_refl.
  - intros H. apply orb_false_iff in H as [Hc Hx]. by rewrite Hc, (IH Hx).
Qed.

Lemma split_fields sep s :
  Forall (fun w => has_char sep w = false) (split sep s).
Proof.
  induction s as [|c s IH]; simpl.
  - by repeat constructor.
  - destruct (Ascii.eqb c sep) eqn:Hc.
    + by constructor.
    + pose proof (split_not_nil sep s).
      destruct (split sep s) as [|w ws]; [done|].
      inversion IH; subst. constructor; [|assumption]. simpl. by rewrite Hc.
Qed.




















(** ** Sorting by departure *)

Section Sorting.

Variable utcoffset : string -> datetime -> Z.

Lemma datetime_lt_same_kind a b :
  aware a = aware b -> exists r, datetime_lt utcoffset a b = Ok r.
Proof.
  unfold aware, datetime_lt, same_tzinfo, utcoffset_of.
  destruct (tzinfo a) as [za|], (tzinfo b) as [zb|]; try discriminate; intros _.
  - destruct (String.eqb za zb); [by eexists|].
    destruct (_ =? _); by eexists.
  - by eexists.
Qed.

Lemma datetime_lt_mixed a b :
  aware a <> aware b -> datetime_lt utcoffset a b = Raise TypeError.
Proof.
  unfold aware, datetime_lt, same_tzinfo, utcoffset_of.
  by destruct (tzinfo a) as [za|], (tzinfo b) as [zb|].
Qed.

Lemma insert_sorted_same_kind {A} k (x : datetime * A) prefix :
  aware (fst x) = k -> Forall (fun y => aware (fst y) = k) prefix ->
  exists r, insert_sorted (datetime_lt utcoffset) x prefix = Ok r
            /\ Forall (fun y => aware (fst y) = k) r /\ r <> [].
Proof.
  intros Hx. induction prefix as [|y ys IH]; intros Hp; simpl.
  - exists [x]. by repeat constructor.
  - inversion Hp as [|? ? Hy Hys]; subst.
    destruct (datetime_lt_same_kind (fst x) (fst y)) as [b Hb]; [congruence|].
    rewrite Hb. simpl. destruct b.
    + destruct (IH Hys) as (r & -> & Hr & _). simpl.
      exists (y :: r). by repeat constructor.
    + exists (x :: y :: ys). by repeat constructor.
Qed.

Lemma sort_loop_mixed {A} k (todo prefix : list (datetime * A)) :
  prefix <> [] ->
  Forall (fun y => aware (fst y) = k) prefix ->
  Exists (fun y => aware (fst y) <> k) todo ->
  sort_loop (datetime_lt utcoffset) todo prefix = Raise TypeError.
Proof.
  revert prefix. induction todo as [|x todo IH]; intros prefix Hne Hp Hex.
  - inversion Hex.
  - simpl. destruct (bool_decide (aware (fst x) = k)) eqn:Hk.
    + apply bool_decide_eq_true in Hk.
      destruct (insert_sorted_same_kind k x prefix Hk Hp) as (r & -> & Hr & Hrne).
      simpl. apply IH; try assumption.
      inversion Hex; subst; [contradiction | assumption].
    + apply bool_decide_eq_false in Hk.
      destruct prefix as [|y ys]; [done|]. simpl.
      inversion Hp; subst.
      rewrite datetime_lt_mixed; [reflexivity | congruence].
Qed.

Lemma list_sort_mixed {A} (key : A -> datetime) (l : list A) :
  Exists (fun a => aware (key a) = true) l ->
  Exists (fun a => aware (key a) = false) l ->
  list_sort (datetime_lt utcoffset) key l = Raise TypeError.
Proof.
  intros Ht Hf. unfold list_sort.
  destruct l as [|a l]; [inversion Ht|]. simpl.
  rewrite (sort_loop_mixed (aware (key a))); [reflexivity | done | by repeat constructor |].
  apply Exists_exists.
  destruct (aware (key a)) eqn:Ha.
  - inversion Hf as [? ? H0|? ? H0]; subst; [congruence|].
    apply Exists_exists in H0 as (b & Hb & Hkb).
    exists (key b, b). split; [|simpl; congruence].
    apply list_elem_of_In, in_map_iff. exists b.
    split; [reflexivity | by apply list_elem_of_In].
  - inversion Ht as [? ? H0|? ? H0]; subst; [congruence|].
    apply Exists_exists in H0 as (b & Hb & Hkb).
    exists (key b, b). split; [|simpl; congruence].
    apply list_elem_of_In, in_map_iff. exists b.
    split; [reflexivity | by apply list_elem_of_In].
Qed.

(** C4, what the code does: when the list holds a flight without
    segments next to a flight with segments, whose departure carries a
    time zone as every segment's does after construction, the sort by
    "departure" compares the zone-less [datetime.min] with a zoned
    departure and raises [TypeError]; nothing is displayed and no flight
    is placed first. *)
Theorem sort_departure_no_segments (flights : list Flight) :
  Forall departures_aware flights ->
  Exists (fun f => itinerary f = []) flights ->
  Exists (fun f => itinerary f <> []) flights ->
  sort_flights utcoffset flights "departure" = Raise TypeError
  /\ display_flights utcoffset flights "departure" = ([], Raise TypeError).
Proof.
  intros Haware He Hs.
  assert (Hsort : sort_flights utcoffset flights "departure" = Raise TypeError).
  { unfold sort_flights. simpl. apply list_sort_mixed.
    - rewrite Forall_forall in Haware.
      apply Exists_exists in Hs as (f & Hin & Hf).
      apply Exists_exists. exists f. split; [exact Hin|].
      specialize (Haware f Hin).
      unfold departure_key, departures_aware in *.
      destruct (itinerary f) as [|s segs]; [done|].
      by inversion Haware.
    - apply Exists_exists in He as (f & Hin & Hf).
      apply Exists_exists. exists f. split; [exact Hin|].
      unfold departure_key. by rewrite Hf. }
  split; [exact Hsort|].
  unfold display_flights. destruct flights as [|f fs]; [inversion He|].
  by rewrite Hsort.
Qed.

End Sorting.

Lemma sort_departure_no_segments_witness :
  let utcoffset := fun (_ : string) (_ : datetime) => 3600000000 in
  let with_segment :=
    create_test_flight 8950 "NOK" ["QR"] (dt 2025 12 10 7 30) (dt 2025 12 11 17 30) in
  let no_segment := Flight_new 8500 "NOK" ["QR"] [] None in
  sort_flights utcoffset [with_segment; no_segment] "departure" = Raise TypeError
  /\ display_flights utcoffset [with_segment; no_segment] "departure"
     = ([], Raise TypeError).
Proof.
  apply (sort_departure_no_segments (fun _ _ => 3600000000)
           [create_test_flight 8950 "NOK" ["QR"] (dt 2025 12 10 7 30) (dt 2025 12 11 17 30);
            Flight_new 8500 "NOK" ["QR"] [] None]).
  - repeat constructor.
  - apply Exists_cons_tl, Exists_cons_hd. reflexivity.
  - apply Exists_cons_hd. discriminate.
Defined.

(** ** Provider selection *)

Lemma get_provider_cases (env : environ) :
  let name := PROVIDER_NAME env in
  match selected_credentials env with
  | Some key => get_provider env = ([], Ok (provider_for name key))
  | None =>
      get_provider env
      = ((if String.eqb name "MOCK" then [] else [WarnNoApiKey name]),
         Ok MockProvider)
  end.
Proof.
  unfold selected_credentials, get_provider, provider_for. cbv zeta.
  generalize (PROVIDER_NAME env) as name. intros name.
  destruct (String.eqb name "KIWI") eqn:HK.
  { apply String.eqb_eq in HK as ->.
    destruct (getenv_truthy env "KIWI_API_KEY"); reflexivity. }
  destruct (String.eqb name "AMADEUS") eqn:HA.
  { apply String.eqb_eq in HA as ->.
    destruct (getenv_truthy env "AMADEUS_API_KEY"); reflexivity. }
  destruct (String.eqb name "SKYSCANNER") eqn:HS.
  { apply String.eqb_eq in HS as ->.
    destruct (getenv_truthy env "SKYSCANNER_API_KEY"); reflexivity. }
  destruct (getenv_truthy env "KIWI_API_KEY"),
    (getenv_truthy env "AMADEUS_API_KEY"),
    (getenv_truthy env "SKYSCANNER_API_KEY");
    destruct (String.eqb name "MOCK"); reflexivity.
Qed.

Section Search.

Variable utcoffset : string -> datetime -> Z.
Variable strptime_ymd : string -> result date.
Variable mock_dataset : list Flight.
Variable kiwi_api : string -> search_params -> result (list Flight).

(** A well-formed command line with a stub provider selected: the
    provider's [NotImplementedError] is reported and the command exits
    with status 1. *)
Lemma search_stub_aborts (env : environ) (o : search_options) p d dates tw :
  (given (opt_date o) = Some d /\ given (opt_date_range o) = None
   \/ given (opt_date o) = None /\ given (opt_date_range o) = Some d) ->
  parse_date_range strptime_ymd d = Ok dates ->
  parse_time_window (opt_dep_window o) = ([], Ok tw) ->
  get_provider env = ([], Ok p) ->
  (forall params, search_flights mock_dataset kiwi_api p params
                  = Raise NotImplementedError) ->
  search utcoffset strptime_ymd mock_dataset kiwi_api env o
  = ([InfoSearching (class_name p); ErrSearching NotImplementedError],
     Raise (Exit 1)).
Proof.
  intros Hd Hdates Htw Hp Hstub. unfold search.
  destruct Hd as [[-> ->]|[-> ->]]; rewrite Hdates, Htw, Hp; simpl;
    rewrite Hstub; reflexivity.
Qed.

(** C5, as the code has it: selection itself never fails; when the
    selected provider's credentials are missing, or the name is none of
    KIWI, AMADEUS and SKYSCANNER, the Mock provider is returned, with a
    warning unless MOCK was asked for; when the credentials are set the
    named provider is returned without a warning, and for AMADEUS and
    SKYSCANNER, which are not implemented, a well-formed search then
    reports the error and exits with status 1. *)
Theorem provider_selection (env : environ) :
  let name := PROVIDER_NAME env in
  (exists out p, get_provider env = (out, Ok p))
  /\ (selected_credentials env = None ->
      get_provider env
      = ((if String.eqb name "MOCK" then [] else [WarnNoApiKey name]),
         Ok MockProvider))
  /\ (forall key, selected_credentials env = Some key ->
      get_provider env = ([], Ok (provider_for name key)))
  /\ (forall key o d dates tw,
      selected_credentials env = Some key ->
      name = "AMADEUS" \/ name = "SKYSCANNER" ->
      (given (opt_date o) = Some d /\ given (opt_date_range o) = None
       \/ given (opt_date o) = None /\ given (opt_date_range o) = Some d) ->
      parse_date_range strptime_ymd d = Ok dates ->
      parse_time_window (opt_dep_window o) = ([], Ok tw) ->
      search utcoffset strptime_ymd mock_dataset kiwi_api env o
      = ([InfoSearching (class_name (provider_for name key));
          ErrSearching NotImplementedError],
         Raise (Exit 1))).
Proof.
  intros name. pose proof (get_provider_cases env) as H. cbv zeta in H.
  fold name in H.
  repeat apply conj.
  - destruct (selected_credentials env); rewrite H; by eexists _, _.
  - intros E. by rewrite E in H.
  - intros key E. by rewrite E in H.
  - intros key o d dates tw E Hname Hd Hdates Htw. rewrite E in H.
    apply (search_stub_aborts env o _ d dates tw Hd Hdates Htw H).
    intros params. unfold provider_for.
    destruct Hname as [-> | ->]; reflexivity.
Qed.

End Search.

Lemma provider_selection_witness :
  let env : environ := {[ "PROVIDER" := "amadeus" ]} in
  let env' : environ := <[ "SKYSCANNER_API_KEY" := "secret" ]> {[ "PROVIDER" := "SKYSCANNER" ]} in
  get_provider env = ([WarnNoApiKey "AMADEUS"], Ok MockProvider)
  /\ get_provider env' = ([], Ok (SkyscannerProvider "secret")).
Proof.
  intros env env'. split.
  - apply (provider_selection (fun _ _ => 0) (fun _ => Raise ValueError) [] (fun _ _ => Ok []) env).
    reflexivity.
  - apply (provider_selection (fun _ _ => 0) (fun _ => Raise ValueError) [] (fun _ _ => Ok []) env'
             : _ /\ _ /\ (forall key, _ -> _ = (_, Ok (provider_for "SKYSCANNER" key))) /\ _).
    reflexivity.
Defined.

(** With AMADEUS selected and its key set, the stub is selected without
    a warning, and the search ends with exit status 1 instead of falling
    back to the Mock provider. *)
Lemma provider_selection_counterexample :
  let env : environ :=
    <[ "AMADEUS_API_KEY" := "secret" ]> {[ "PROVIDER" := "AMADEUS" ]} in
  let o := mk_search_options "OSL" "PER" (Some "2025-12-10") None 1 "economy"
             None None None "price" in
  get_provider env = ([], Ok (AmadeusProvider "secret"))
  /\ search (fun _ _ => 3600000000) (fun _ => Ok (mk_date 2025 12 10))
            sample_flights (fun _ _ => Ok []) env o
     = ([InfoSearching "AmadeusProvider"; ErrSearching NotImplementedError],
        Raise (Exit 1)).
Proof. split; vm_compute; reflexivity. Qed.

(** ** Sorting flights that all have segments *)

Lemma order_cmp_Z {T} (f : T -> Z) : order_cmp (fun a b => f a ?= f b).
Proof.
  split.
  - intros a b. apply Z.compare_antisym.
  - intros a b c H. apply Z.compare_eq in H. by rewrite H.
  - intros a b c. rewrite !Z.compare_lt_iff. lia.
Qed.

Lemma order_cmp_eq_r {T} (cmp : T -> T -> comparison) :
  order_cmp cmp -> forall a b c, cmp b c = Eq -> cmp a b = cmp a c.
Proof.
  intros [Hopp Heq _] a b c H.
  assert (Hcb : cmp c b = Eq) by (rewrite (Hopp b c), H; reflexivity).
  pose proof (Heq c b a Hcb) as E.
  rewrite (Hopp b a), (Hopp c a), E. reflexivity.
Qed.

Lemma order_cmp_lex {T} (c1 c2 : T -> T -> comparison) :
  order_cmp c1 -> order_cmp c2 -> order_cmp (fun a b => lex (c1 a b) (c2 a b)).
Proof.
  intros H1 H2. pose proof (order_cmp_eq_r c1 H1) as Hr.
  destruct H1 as [O1 E1 L1], H2 as [O2 E2 L2]. split.
  - intros a b. rewrite (O1 a b), (O2 a b). by destruct (c1 a b).
  - intros a b c H. unfold lex in *.
    destruct (c1 a b) eqn:Hab; try discriminate.
    by rewrite (E1 a b c Hab), (E2 a b c H).
  - intros a b c Hab Hbc. unfold lex in *.
    destruct (c1 a b) eqn:E; try discriminate;
      destruct (c1 b c) eqn:F; try discriminate.
    + rewrite (E1 a b c E), F. by apply (L2 a b c).
    + by rewrite (E1 a b c E), F.
    + by rewrite <- (Hr a b c F), E.
    + by rewrite (L1 a b c E F).
Qed.

Lemma date_cmp_order {T} (f : T -> date) :
  order_cmp (fun a b => date_cmp (f a) (f b)).
Proof.
  change (order_cmp (fun a b =>
            lex (year (f a) ?= year (f b))
                (lex (month (f a) ?= month (f b)) (day (f a) ?= day (f b))))).
  apply order_cmp_lex; [apply (order_cmp_Z (fun a => year (f a)))|].
  apply order_cmp_lex; [apply (order_cmp_Z (fun a => month (f a)))|].
  apply (order_cmp_Z (fun a => day (f a))).
Qed.

Lemma time_cmp_order {T} (f : T -> time) :
  order_cmp (fun a b => time_cmp (f a) (f b)).
Proof.
  change (order_cmp (fun a b =>
            lex (hour (f a) ?= hour (f b))
              (lex (minute (f a) ?= minute (f b))
                 (lex (second (f a) ?= second (f b))
                      (microsecond (f a) ?= microsecond (f b)))))).
  apply order_cmp_lex; [apply (order_cmp_Z (fun a => hour (f a)))|].
  apply order_cmp_lex; [apply (order_cmp_Z (fun a => minute (f a)))|].
  apply order_cmp_lex; [apply (order_cmp_Z (fun a => second (f a)))|].
  apply (order_cmp_Z (fun a => microsecond (f a))).
Qed.

Lemma naive_cmp_order : order_cmp naive_cmp.
Proof.
  change (order_cmp (fun a b =>
            lex (date_cmp (dt_date a) (dt_date b))
                (time_cmp (dt_time a) (dt_time b)))).
  apply order_cmp_lex; [apply date_cmp_order | apply time_cmp_order].
Qed.

Lemma order_cmp_asym {T} (cmp : T -> T -> comparison) a b :
  order_cmp cmp -> is_lt (cmp a b) = true -> is_lt (cmp b a) = false.
Proof. intros [O _ _]. rewrite (O a b). by destruct (cmp a b). Qed.

Lemma order_cmp_negtrans {T} (cmp : T -> T -> comparison) a b c :
  order_cmp cmp ->
  is_lt (cmp a b) = false -> is_lt (cmp b c) = false -> is_lt (cmp a c) = false.
Proof.
  intros H Hab Hbc. pose proof H as [O E L].
  destruct (cmp a c) eqn:Hac; try reflexivity. exfalso.
  destruct (cmp a b) eqn:Eab; try discriminate.
  - rewrite (E a b c Eab) in Hac. by rewrite Hac in Hbc.
  - assert (Hba : cmp b a = Lt) by (rewrite (O a b), Eab; reflexivity).
    by rewrite (L b a c Hba Hac) in Hbc.
Qed.

Section InsertionSort.

Context {K A : Type}.
Variable lt : K -> K -> result bool.
Variable ltb : K -> K -> bool.
Variable P : K -> Prop.

Hypothesis lt_ltb : forall a b, P a -> P b -> lt a b = Ok (ltb a b).
Hypothesis ltb_asym : forall a b, ltb a b = true -> ltb b a = false.
Hypothesis ltb_negtrans :
  forall a b c, ltb a b = false -> ltb b c = false -> ltb a c = false.

(** The sorted prefix is kept largest first. *)
Definition descending (l : list (K * A)) : Prop :=
  StronglySorted (fun y z => ltb y.1 z.1 = false) l.

Lemma insert_sorted_ok (x : K * A) prefix :
  P x.1 -> Forall (fun y => P y.1) prefix -> descending prefix ->
  exists r, insert_sorted lt x prefix = Ok r /\ x :: prefix ≡ₚ r /\ descending r.
Proof.
  intros Hx. induction prefix as [|y ys IH]; intros HP Hd; simpl.
  - exists [x]. repeat split; [done|]. by repeat constructor.
  - apply Forall_cons in HP as [Hy HP].
    apply StronglySorted_cons in Hd as [Hys Hd].
    rewrite (lt_ltb _ _ Hx Hy). simpl. destruct (ltb x.1 y.1) eqn:Hxy.
    + destruct (IH HP Hd) as (r & -> & Hperm & Hr). simpl.
      exists (y :: r). repeat split.
      * rewrite <- Hperm. apply Permutation_swap.
      * apply StronglySorted_cons. split; [|exact Hr].
        rewrite <- Hperm. constructor; [by apply ltb_asym | exact Hys].
    + exists (x :: y :: ys). repeat split; [done|].
      apply StronglySorted_cons. split; [|by apply StronglySorted_cons].
      constructor; [exact Hxy|].
      eapply Forall_impl; [exact Hys|]. intros z Hz. simpl in Hz.
      by apply (ltb_negtrans _ y.1).
Qed.

Lemma sort_loop_ok (todo prefix : list (K * A)) :
  Forall (fun y => P y.1) todo -> Forall (fun y => P y.1) prefix ->
  descending prefix ->
  exists r, sort_loop lt todo prefix = Ok r /\ todo ++ prefix ≡ₚ r /\ descending r.
Proof.
  revert prefix. induction todo as [|x todo IH]; intros prefix Ht Hp Hd; simpl.
  - by exists prefix.
  - apply Forall_cons in Ht as [Hx Ht].
    destruct (insert_sorted_ok x prefix Hx Hp Hd) as (r1 & -> & Hperm1 & Hd1).
    simpl.
    assert (Hp1 : Forall (fun y => P y.1) r1).
    { rewrite <- Hperm1. by constructor. }
    destruct (IH r1 Ht Hp1 Hd1) as (r & -> & Hperm & Hr).
    exists r. repeat split; [|exact Hr].
    rewrite <- Hperm, <- Hperm1. by rewrite Permutation_middle.
Qed.

Lemma descending_rev key (r : list (K * A)) :
  Forall (fun y => y.1 = key y.2) r -> descending r ->
  ascending ltb key (map snd (rev r)).
Proof.
  unfold ascending. induction r as [|y ys IH]; intros Hk Hd; simpl.
  - constructor.
  - apply Forall_cons in Hk as [Hy Hk].
    apply StronglySorted_cons in Hd as [Hys Hd].
    rewrite map_app. apply StronglySorted_app_2.
    + intros a b Ha Hb. apply list_elem_of_singleton in Hb as ->.
      apply list_elem_of_In, in_map_iff in Ha as (z & <- & Hz).
      apply in_rev in Hz.
      rewrite Forall_forall in Hys, Hk.
      apply list_elem_of_In in Hz.
      specialize (Hys z Hz). specialize (Hk z Hz). simpl in Hys.
      by rewrite <- Hy, <- Hk.
    + by apply IH.
    + by repeat constructor.
Qed.

Lemma list_sort_ok (key : A -> K) (l : list A) :
  Forall (fun a => P (key a)) l ->
  exists r, list_sort lt key l = Ok r /\ l ≡ₚ r /\ ascending ltb key r.
Proof.
  intros HP. unfold list_sort.
  destruct (sort_loop_ok (map (fun a => (key a, a)) l) [])
    as (r & -> & Hperm & Hd).
  - apply Forall_forall. intros y Hy.
    apply list_elem_of_In, in_map_iff in Hy as (a & <- & Ha).
    rewrite Forall_forall in HP. apply HP. by apply list_elem_of_In.
  - constructor.
  - constructor.
  - simpl. rewrite app_nil_r in Hperm. eexists. split; [reflexivity|]. split.
    + rewrite <- (Permutation_rev r), <- Hperm, map_map. simpl.
      by rewrite map_id.
    + apply descending_rev; [|exact Hd].
      rewrite <- Hperm. apply Forall_forall. intros y Hy.
      by apply list_elem_of_In, in_map_iff in Hy as (a & <- & Ha).
Qed.

End InsertionSort.

(** X1: when every flight has a first segment in one time zone, the
    sort by "departure" returns the same flights in ascending order of
    that departure. *)
Theorem sort_departure_ascending (utcoffset : string -> datetime -> Z)
    (z : string) (flights : list Flight) :
  Forall (departs_in z) flights ->
  exists sorted,
    sort_flights utcoffset flights "departure" = Ok sorted
    /\ flights ≡ₚ sorted
    /\ ascending (fun a b => is_lt (naive_cmp a b)) departure_key sorted.
Proof.
  intros H. unfold sort_flights. simpl.
  apply (list_sort_ok (datetime_lt utcoffset)
           (fun a b => is_lt (naive_cmp a b)) (fun d => tzinfo d = Some z)).
  - intros a b Ha Hb. unfold datetime_lt, same_tzinfo.
    by rewrite Ha, Hb, String.eqb_refl.
  - intros a b. apply order_cmp_asym, naive_cmp_order.
  - intros a b c. apply order_cmp_negtrans, naive_cmp_order.
  - eapply Forall_impl; [exact H|]. intros f (s & rest & Hf & Hz).
    unfold departure_key. by rewrite Hf.
Qed.

Lemma sort_departure_ascending_witness :
  exists sorted,
    sort_flights (fun _ _ => 3600000000) sample_flights "departure" = Ok sorted
    /\ sample_flights ≡ₚ sorted
    /\ ascending (fun a b => is_lt (naive_cmp a b)) departure_key sorted.
Proof.
  apply (sort_departure_ascending (fun _ _ => 3600000000) OSLO sample_flights).
  repeat constructor; eexists _, _; split; reflexivity.
Defined.

(** * Further properties *)

(** ** The filter as a conjunction *)

Lemma list_filter_true {A} (l : list A) : List.filter (fun _ => true) l = l.
Proof. induction l as [|x l IH]; simpl; [reflexivity | by rewrite IH]. Qed.

Lemma list_filter_filter {A} (p q : A -> bool) (l : list A) :
  List.filter q (List.filter p l) = List.filter (fun x => p x && q x) l.
Proof.
  induction l as [|x l IH]; simpl; [reflexivity|].
  destruct (p x); simpl; [destruct (q x)|]; by rewrite IH.
Qed.

(** X2: the criteria of [filter_flights] combine by conjunction: the
    result is the input list filtered once by the conjunction of the
    criteria that are given, so a flight is in the result exactly when it
    is in the input and passes each of them. *)
Theorem filter_flights_conjunction (flights : list Flight)
    airlines max_price window dates :
  filter_flights flights airlines max_price window dates
  = List.filter (keeps airlines max_price window dates) flights
  /\ (forall f,
        In f (filter_flights flights airlines max_price window dates) <->
        In f flights /\ keeps airlines max_price window dates f = true).
Proof.
  assert (E : filter_flights flights airlines max_price window dates
              = List.filter (keeps airlines max_price window dates) flights).
  { unfold filter_flights, keeps.
    destruct airlines as [[|a airlines]|], max_price as [mp|],
      window as [[t1 t2]|], dates as [[d1 [d2|]]|];
      rewrite ?list_filter_filter;
      first [ apply filter_ext; intros f;
              rewrite ?andb_true_r, ?andb_true_l, ?andb_assoc; reflexivity
            | symmetry; apply list_filter_true ]. }
  split; [exact E|]. intros f. rewrite E. apply filter_In.
Qed.

Lemma filter_flights_keeps flights airlines max_price window dates :
  filter_flights flights airlines max_price window dates
  = List.filter (keeps airlines max_price window dates) flights.
Proof. apply filter_flights_conjunction. Qed.

(** X3: filtering composes: applying the same criteria a second time
    changes nothing, two calls give the same result in either order, and
    applying the four criteria in four calls, one criterion each, gives
    the result of the single call with all four. *)
Theorem filter_flights_compose (flights : list Flight) a p w d a' p' w' d' :
  filter_flights (filter_flights flights a p w d) a p w d
  = filter_flights flights a p w d
  /\ filter_flights (filter_flights flights a p w d) a' p' w' d'
     = filter_flights (filter_flights flights a' p' w' d') a p w d
  /\ filter_flights
       (filter_flights
          (filter_flights (filter_flights flights a None None None)
                          None p None None)
          None None w None)
       None None None d
     = filter_flights flights a p w d.
Proof.
  rewrite !filter_flights_keeps, !list_filter_filter. repeat split.
  - apply filter_ext. intros f. by destruct (keeps a p w d f).
  - apply filter_ext. intros f. apply andb_comm.
  - apply filter_ext. intros f. unfold keeps.
    rewrite ?andb_true_r, ?andb_true_l, ?andb_assoc. reflexivity.
Qed.

(** ** Flights without segments, the time window and the dates *)

Lemma is_le_lt_opp {T} (cmp : T -> T -> comparison) a b :
  order_cmp cmp -> is_le (cmp a b) = negb (is_lt (cmp b a)).
Proof. intros [O _ _]. rewrite (O a b). by destruct (cmp a b). Qed.

Lemma is_le_trans {T} (cmp : T -> T -> comparison) a b c :
  order_cmp cmp ->
  is_le (cmp a b) = true -> is_le (cmp b c) = true -> is_le (cmp a c) = true.
Proof.
  intros H. rewrite !(is_le_lt_opp cmp) by exact H.
  rewrite !negb_true_iff. intros Hab Hbc.
  by apply (order_cmp_negtrans cmp c b a).
Qed.

Lemma is_eq_le_le {T} (cmp : T -> T -> comparison) a b :
  order_cmp cmp -> is_eq (cmp a b) = is_le (cmp b a) && is_le (cmp a b).
Proof. intros [O _ _]. rewrite (O a b). by destruct (cmp a b). Qed.

Lemma time_le_trans a b c :
  time_le a b = true -> time_le b c = true -> time_le a c = true.
Proof. apply (is_le_trans time_cmp), (time_cmp_order (fun t => t)). Qed.

Lemma date_le_trans a b c :
  date_le a b = true -> date_le b c = true -> date_le a c = true.
Proof. apply (is_le_trans date_cmp), (date_cmp_order (fun t => t)). Qed.

Lemma keeps_itinerary airlines max_price window dates f :
  window <> None \/ dates <> None ->
  keeps airlines max_price window dates f = true -> itinerary f <> [].
Proof.
  intros Hcrit Hk Hnil.
  unfold keeps, time_pred, date_range_pred, single_date_pred in Hk.
  rewrite Hnil in Hk.
  destruct Hcrit as [Hw|Hd].
  - destruct window as [[t1 t2]|]; [|done].
    by rewrite andb_false_r in Hk.
  - destruct dates as [[d1 [d2|]]|]; [| |done]; by rewrite andb_false_r in Hk.
Qed.

(** X4: as soon as a time window or a date is given, no flight without
    segments is left in the result: every flight returned has a first
    segment. *)
Theorem filter_flights_drops_segmentless (flights : list Flight)
    airlines max_price window dates (f : Flight) :
  window <> None \/ dates <> None ->
  In f (filter_flights flights airlines max_price window dates) ->
  itinerary f <> [].
Proof.
  intros Hcrit Hin. rewrite filter_flights_keeps in Hin.
  apply filter_In in Hin as [_ Hk]. by apply (keeps_itinerary _ _ _ _ _ Hcrit Hk).
Qed.

Lemma filter_flights_drops_segmentless_witness :
  let f := create_test_flight 8950 "NOK" ["QR"] (dt 2025 12 10 7 30) (dt 2025 12 11 17 30) in
  let g := Flight_new 8500 "NOK" ["QR"] [] None in
  In f (filter_flights [g; f] None None None (Some (mk_date 2025 12 10, None)))
  /\ itinerary f <> [].
Proof.
  intros f g.
  assert (Hin : In f (filter_flights [g; f] None None None
                        (Some (mk_date 2025 12 10, None)))).
  { left. reflexivity. }
  split; [exact Hin|].
  apply (filter_flights_drops_segmentless [g; f] None None None
           (Some (mk_date 2025 12 10, None)) f); [|exact Hin].
  right. discriminate.
Defined.

Lemma list_filter_none {A} (p : A -> bool) (l : list A) :
  (forall x, p x = false) -> List.filter p l = [].
Proof.
  intros H. induction l as [|x l IH]; simpl; [reflexivity|]. by rewrite H.
Qed.

Lemma time_le_refl t : time_le t t = true.
Proof.
  unfold time_le, time_cmp. by rewrite !Z.compare_refl.
Qed.

Lemma date_eq_iff a b : date_eq a b = true <-> a = b.
Proof.
  unfold date_eq, date_cmp. destruct a as [y m d], b as [y' m' d']. simpl. split.
  - destruct (y ?= y') eqn:Ey; try discriminate.
    destruct (m ?= m') eqn:Em; try discriminate.
    destruct (d ?= d') eqn:Ed; try discriminate.
    apply Z.compare_eq in Ey, Em, Ed. by subst.
  - intros [= -> -> ->]. by rewrite !Z.compare_refl.
Qed.

(** X5: the departure window is inclusive at both ends and does not
    wrap past midnight: with only a window given, the flights kept are
    the input flights whose first segment leaves at a time of day from
    [start_time] to [end_time], the two bounds included, and a window
    whose end lies before its start keeps no flight at all, whatever the
    other criteria. *)
Theorem time_window_inclusive (flights : list Flight) (start_time end_time : time) :
  (forall f,
     In f (filter_flights flights None None (Some (start_time, end_time)) None) <->
     In f flights /\ exists t, departure_time f = Some t
                    /\ time_le start_time t = true /\ time_le t end_time = true)
  /\ (forall f, In f flights ->
        departure_time f = Some start_time \/ departure_time f = Some end_time ->
        time_le start_time end_time = true ->
        In f (filter_flights flights None None (Some (start_time, end_time)) None))
  /\ (forall airlines max_price dates,
        time_le start_time end_time = false ->
        filter_flights flights airlines max_price (Some (start_time, end_time)) dates
        = []).
Proof.
  assert (Hiff : forall f,
     In f (filter_flights flights None None (Some (start_time, end_time)) None) <->
     In f flights /\ exists t, departure_time f = Some t
                    /\ time_le start_time t = true /\ time_le t end_time = true).
  { intros f. unfold filter_flights. rewrite filter_In.
    unfold time_pred, departure_time. destruct (itinerary f) as [|s segs].
    - split; [intros [_ [=]] | intros [_ (t & [=] & _)]].
    - rewrite andb_true_iff. split.
      + intros [Hin [H1 H2]]. split; [exact Hin|]. by eexists.
      + intros [Hin (t & [= <-] & H1 & H2)]. by repeat split. }
  split; [exact Hiff|]. split.
  - intros f Hin Ht Hle. apply Hiff. split; [exact Hin|].
    destruct Ht as [Ht|Ht]; eexists; (split; [exact Ht|]);
      split; try exact Hle; apply time_le_refl.
  - intros airlines max_price dates Hrev. rewrite filter_flights_keeps.
    apply list_filter_none. intros f. unfold keeps, time_pred.
    destruct (itinerary f) as [|s segs].
    + by rewrite andb_false_r.
    + destruct (time_le start_time (dt_time (dep_time_local s))) eqn:H1;
        [|by rewrite ?andb_false_r, ?andb_false_l].
      destruct (time_le (dt_time (dep_time_local s)) end_time) eqn:H2;
        [|by rewrite ?andb_false_r, ?andb_false_l].
      by rewrite (time_le_trans _ _ _ H1 H2) in Hrev.
Qed.

Lemma time_window_inclusive_witness :
  let f := create_test_flight 8950 "NOK" ["QR"] (dt 2025 12 10 7 30) (dt 2025 12 11 17 30) in
  In f (filter_flights sample_flights None None
          (Some (mk_time 7 30 0 0, mk_time 10 0 0 0)) None)
  /\ filter_flights sample_flights (Some ["QR"]) None
       (Some (mk_time 22 0 0 0, mk_time 6 0 0 0)) None = [].
Proof.
  intros f.
  destruct (time_window_inclusive sample_flights (mk_time 7 30 0 0) (mk_time 10 0 0 0))
    as (_ & Hb & _).
  destruct (time_window_inclusive sample_flights (mk_time 22 0 0 0) (mk_time 6 0 0 0))
    as (_ & _ & Hw).
  split.
  - apply Hb; [left; reflexivity | left; reflexivity | reflexivity].
  - apply Hw. reflexivity.
Defined.

(** X6: a single date selects the flights whose first segment leaves on
    that calendar date and is the same filter as the range from the date
    to itself; a range keeps the departures from its first to its last
    day, both included, and a range whose end lies before its start keeps
    no flight. *)
Theorem date_filter_range (flights : list Flight) (start_date end_date : date) :
  (forall f,
     In f (filter_flights flights None None None (Some (start_date, None))) <->
     In f flights /\ departure_date f = Some start_date)
  /\ (forall airlines max_price window,
        filter_flights flights airlines max_price window (Some (start_date, None))
        = filter_flights flights airlines max_price window
            (Some (start_date, Some start_date)))
  /\ (forall f,
        In f (filter_flights flights None None None
                (Some (start_date, Some end_date))) <->
        In f flights /\ exists d, departure_date f = Some d
                       /\ date_le start_date d = true /\ date_le d end_date = true)
  /\ (forall airlines max_price window,
        date_le start_date end_date = false ->
        filter_flights flights airlines max_price window
          (Some (start_date, Some end_date)) = []).
Proof.
  repeat apply conj.
  - intros f. unfold filter_flights. rewrite filter_In.
    unfold single_date_pred, departure_date. destruct (itinerary f) as [|s segs].
    + split; [intros [_ [=]] | intros [_ [=]]].
    + rewrite date_eq_iff. split; [intros [? ->] | intros [? [= ->]]]; by split.
  - intros airlines max_price window. rewrite !filter_flights_keeps.
    apply filter_ext. intros f. unfold keeps. f_equal.
    unfold single_date_pred, date_range_pred.
    destruct (itinerary f) as [|s segs]; [reflexivity|].
    apply (is_eq_le_le date_cmp), (date_cmp_order (fun d => d)).
  - intros f. unfold filter_flights. rewrite filter_In.
    unfold date_range_pred, departure_date. destruct (itinerary f) as [|s segs].
    + split; [intros [_ [=]] | intros [_ (t & [=] & _)]].
    + rewrite andb_true_iff. split.
      * intros [Hin [H1 H2]]. split; [exact Hin|]. by eexists.
      * intros [Hin (t & [= <-] & H1 & H2)]. by repeat split.
  - intros airlines max_price window Hrev. rewrite filter_flights_keeps.
    apply list_filter_none. intros f. unfold keeps, date_range_pred.
    destruct (itinerary f) as [|s segs].
    + by rewrite andb_false_r.
    + destruct (date_le start_date (dt_date (dep_time_local s))) eqn:H1;
        [|by rewrite ?andb_false_r, ?andb_false_l].
      destruct (date_le (dt_date (dep_time_local s)) end_date) eqn:H2;
        [|by rewrite ?andb_false_r, ?andb_false_l].
      by rewrite (date_le_trans _ _ _ H1 H2) in Hrev.
Qed.

Lemma date_filter_range_witness :
  filter_flights sample_flights None (Some 9000%float) None
    (Some (mk_date 2025 12 11, Some (mk_date 2025 12 10))) = [].
Proof.
  apply (date_filter_range sample_flights (mk_date 2025 12 11) (mk_date 2025 12 10)).
  reflexivity.
Defined.

(** ** Construction of segments and flights *)






Lemma segment_codes_not_empty (s : FlightSegment) (segs : list FlightSegment) :
  elements (segment_code_set (s :: segs)) <> [].
Proof.
  intros H.
  assert (Hin : airline_code s ∈ elements (segment_code_set (s :: segs))).
  { apply elem_of_elements. unfold segment_code_set. simpl. set_solver. }
  rewrite H in Hin. by apply not_elem_of_nil in Hin.
Qed.

(** X8: [Flight.__post_init__] changes nothing but the airline codes,
    running it again changes nothing, and afterwards a flight with a
    segment has at least one airline code. *)
Theorem Flight_post_init_once (f : Flight) :
  let f' := Flight_post_init f in
  Flight_post_init f' = f'
  /\ price_total f' = price_total f /\ currency f' = currency f
  /\ itinerary f' = itinerary f /\ booking_link f' = booking_link f
  /\ (itinerary f <> [] -> airline_codes f' <> []).
Proof.
  unfold Flight_post_init.
  destruct f as [price cur codes segs link]. simpl.
  destruct codes as [|c codes], segs as [|s segs]; simpl;
    repeat apply conj; try reflexivity; try done.
  - pose proof (segment_codes_not_empty s segs) as Hne.
    destruct (elements (segment_code_set (s :: segs))); [done | reflexivity].
  - intros _. apply segment_codes_not_empty.
Qed.

Lemma Flight_post_init_once_witness :
  let seg := FlightSegment_new "OSL" "DOH" (dt 2025 12 10 7 30)
               (dt 2025 12 10 14 0) 390 "QR176" "QR" in
  let f := mk_Flight 8950 "NOK" [] [seg] None in
  itinerary f <> [] /\ airline_codes (Flight_post_init f) <> [].
Proof.
  intros seg f.
  assert (Hseg : itinerary f <> []) by discriminate.
  split; [exact Hseg|].
  by apply (Flight_post_init_once f).
Defined.

(** ** Normalisation of the airline option *)

Lemma upper_char_idem c : upper_char (upper_char c) = upper_char c.
Proof. destruct c as [[|] [|] [|] [|] [|] [|] [|] [|]]; reflexivity. Qed.

Lemma upper_idem s : upper (upper s) = upper s.
Proof.
  induction s as [|c s IH]; simpl; [reflexivity|].
  by rewrite upper_char_idem, IH.
Qed.

Lemma upper_not_empty s : s <> EmptyString -> upper s <> EmptyString.
Proof. by destruct s. Qed.

Lemma normalize_airline_codes_tokens s :
  s <> EmptyString ->
  normalize_airline_codes (Some s) = Some (map token_code (split "," s)).
Proof. by destruct s. Qed.

Lemma known_code_upper a :
  dict_has_key AIRLINE_CODES a = true -> upper a = a /\ a <> EmptyString.
Proof.
  unfold dict_has_key. rewrite existsb_exists. intros ([k v] & Hin & Hk).
  apply String.eqb_eq in Hk as <-.
  simpl in Hin.
  repeat (destruct Hin as [[= <- <-]|Hin]; [by split|]). done.
Qed.

Lemma code_for_upper a :
  upper a = a -> upper (code_for a) = code_for a
                 /\ (code_for a <> EmptyString).
Proof.
  intros Ha. unfold code_for.
  destruct (find _ AIRLINE_NAMES_TO_CODES) as [[name code]|] eqn:E.
  - apply find_some in E as [Hin _].
    vm_compute in Hin.
    repeat (destruct Hin as [[= <- <-]|Hin]; [by split|]). done.
  - split; [exact Ha|]. intros ->. vm_compute in E. discriminate.
Qed.

Lemma token_code_upper t :
  upper (token_code t) = token_code t /\ token_code t <> EmptyString.
Proof.
  unfold token_code.
  destruct (dict_has_key AIRLINE_CODES (upper (strip t))) eqn:E.
  - by apply known_code_upper.
  - apply code_for_upper, upper_idem.
Qed.

Lemma token_code_blank t : strip t = EmptyString -> token_code t = "QR".
Proof. unfold token_code. by intros ->. Qed.

Lemma blank_strip t : blank t = true -> strip t = EmptyString.
Proof.
  intros H. unfold strip.
  assert (E : lstrip t = EmptyString).
  { induction t as [|c t IH]; simpl in *; [reflexivity|].
    apply andb_true_iff in H as [Hc Ht]. rewrite Hc. by apply IH. }
  by rewrite E.
Qed.

(** X9: a non-empty airline option is turned into one code per
    comma-separated token; every code is non-empty and in upper case, so
    the list is never taken for "no filter" and the airline filter run
    with it keeps exactly the flights that carry one of these codes. *)
Theorem normalize_airline_codes_upper (s : string) :
  s <> EmptyString ->
  exists codes,
    normalize_airline_codes (Some s) = Some codes
    /\ codes <> []
    /\ List.length codes = List.length (split "," s)
    /\ Forall (fun c => upper c = c /\ c <> EmptyString) codes
    /\ (forall flights f,
          In f (filter_flights flights (Some codes) None None None) <->
          In f flights /\ exists code, In code (airline_codes f) /\ In code codes).
Proof.
  intros Hs. rewrite (normalize_airline_codes_tokens s Hs).
  eexists. split; [reflexivity|].
  assert (Hne : map token_code (split "," s) <> []).
  { pose proof (split_not_nil "," s). by destruct (split "," s). }
  assert (Hup : Forall (fun c => upper c = c /\ c <> EmptyString)
                       (map token_code (split "," s))).
  { apply Forall_forall. intros c Hc.
    apply list_elem_of_In, in_map_iff in Hc as (t & <- & _).
    apply token_code_upper. }
  repeat apply conj; [exact Hne | apply length_map | exact Hup |].
  intros flights f. unfold filter_flights.
  destruct (map token_code (split "," s)) as [|c0 codes] eqn:E; [done|].
  rewrite filter_In, airline_pred_true. rewrite Forall_forall in Hup.
  split.
  - intros (Hin & code & a & Hc & Ha & ->). split; [exact Hin|].
    exists (upper a). split; [exact Hc|].
    destruct (Hup a) as [-> _]; [by apply list_elem_of_In | exact Ha].
  - intros (Hin & code & Hc & Ha). split; [exact Hin|].
    exists code, code. repeat split; try assumption.
    symmetry. apply Hup. by apply list_elem_of_In.
Qed.

Lemma normalize_airline_codes_upper_witness :
  exists codes,
    normalize_airline_codes (Some "qr, Emirates ,xx") = Some codes
    /\ codes <> []
    /\ List.length codes = List.length (split "," "qr, Emirates ,xx")
    /\ Forall (fun c => upper c = c /\ c <> EmptyString) codes
    /\ (forall flights f,
          In f (filter_flights flights (Some codes) None None None) <->
          In f flights /\ exists code, In code (airline_codes f) /\ In code codes).
Proof.
  apply (normalize_airline_codes_upper "qr, Emirates ,xx"). discriminate.
Defined.

(** X10: a token that is empty or holds only white space is not dropped
    and not kept: the code in its place is "QR", the code of the first
    airline of the table, since the empty text occurs in every name. *)
Theorem normalize_airline_codes_blank (s : string) (i : nat) (t : string) :
  s <> EmptyString ->
  nth_error (split "," s) i = Some t ->
  blank t = true ->
  exists codes,
    normalize_airline_codes (Some s) = Some codes
    /\ nth_error codes i = Some "QR".
Proof.
  intros Hs Ht Hb. rewrite (normalize_airline_codes_tokens s Hs).
  eexists. split; [reflexivity|].
  rewrite (map_nth_error _ _ _ Ht).
  by rewrite (token_code_blank t (blank_strip t Hb)).
Qed.

Lemma normalize_airline_codes_blank_witness :
  exists codes,
    normalize_airline_codes (Some "EK, ,BA") = Some codes
    /\ nth_error codes 1 = Some "QR".
Proof.
  apply (normalize_airline_codes_blank "EK, ,BA" 1 " "); [discriminate | reflexivity..].
Defined.

(** ** Sorting by duration and by price *)

Section SortTotal.

Context {K A : Type}.
Variable lt : K -> K -> result bool.
Variable P : K -> Prop.
Hypothesis lt_returns : forall a b, P a -> P b -> exists r, lt a b = Ok r.

Lemma insert_sorted_total (x : K * A) prefix :
  P x.1 -> Forall (fun y => P y.1) prefix ->
  exists r, insert_sorted lt x prefix = Ok r /\ x :: prefix ≡ₚ r.
Proof.
  intros Hx. induction prefix as [|y ys IH]; intros HP; simpl.
  - by exists [x].
  - apply Forall_cons in HP as [Hy HP].
    destruct (lt_returns _ _ Hx Hy) as [b ->]. simpl. destruct b.
    + destruct (IH HP) as (r & -> & Hperm). simpl.
      exists (y :: r). split; [reflexivity|].
      rewrite <- Hperm. apply Permutation_swap.
    + by exists (x :: y :: ys).
Qed.

Lemma sort_loop_total (todo prefix : list (K * A)) :
  Forall (fun y => P y.1) todo -> Forall (fun y => P y.1) prefix ->
  exists r, sort_loop lt todo prefix = Ok r /\ todo ++ prefix ≡ₚ r.
Proof.
  revert prefix. induction todo as [|x todo IH]; intros prefix Ht Hp; simpl.
  - by exists prefix.
  - apply Forall_cons in Ht as [Hx Ht].
    destruct (insert_sorted_total x prefix Hx Hp) as (r1 & -> & Hperm1). simpl.
    assert (Hp1 : Forall (fun y => P y.1) r1).
    { rewrite <- Hperm1. by constructor. }
    destruct (IH r1 Ht Hp1) as (r & -> & Hperm).
    exists r. split; [reflexivity|].
    rewrite <- Hperm, <- Hperm1. by rewrite Permutation_middle.
Qed.

(** A sort whose comparisons all return hands back the same elements. *)
Lemma list_sort_total (key : A -> K) (l : list A) :
  Forall (fun a => P (key a)) l ->
  exists r, list_sort lt key l = Ok r /\ l ≡ₚ r.
Proof.
  intros HP. unfold list_sort.
  destruct (sort_loop_total (map (fun a => (key a, a)) l) [])
    as (r & -> & Hperm).
  - apply Forall_forall. intros y Hy.
    apply list_elem_of_In, in_map_iff in Hy as (a & <- & Ha).
    rewrite Forall_forall in HP. apply HP. by apply list_elem_of_In.
  - constructor.
  - simpl. rewrite app_nil_r in Hperm. eexists. split; [reflexivity|].
    rewrite <- (Permutation_rev r), <- Hperm, map_map. simpl.
    by rewrite map_id.
Qed.

End SortTotal.

Lemma ascending_weaken {A K} (ltb ltb' : K -> K -> bool) (Q : K -> Prop)
    (key : A -> K) (l : list A) :
  (forall a b, Q a -> Q b -> ltb a b = ltb' a b) ->
  Forall (fun x => Q (key x)) l ->
  ascending ltb key l -> ascending ltb' key l.
Proof.
  intros Hagree. unfold ascending. induction l as [|x l IH]; intros HQ Hs.
  - constructor.
  - apply Forall_cons in HQ as [Hx HQ].
    apply StronglySorted_cons in Hs as [Hxl Hs].
    apply StronglySorted_cons. split; [|by apply IH].
    rewrite Forall_forall in Hxl, HQ. apply Forall_forall. intros y Hy.
    rewrite <- Hagree; [by apply Hxl | by apply HQ | exact Hx].
Qed.

(** X11: sorting by "duration" never fails and returns the same
    flights in ascending order of the sum of their segment durations. *)
Theorem sort_duration_ascending (utcoffset : string -> datetime -> Z)
    (flights : list Flight) :
  exists sorted,
    sort_flights utcoffset flights "duration" = Ok sorted
    /\ flights ≡ₚ sorted
    /\ ascending Z.ltb duration_key sorted
    /\ (forall f, duration_key f
                  = foldr Z.add 0 (map duration_minutes (itinerary f))).
Proof.
  unfold sort_flights. simpl.
  destruct (list_sort_ok (A := Flight) (fun a b => Ok (a <? b)) Z.ltb
              (fun _ => True)) with (key := duration_key) (l := flights)
    as (sorted & Hs & Hperm & Hasc).
  - reflexivity.
  - intros a b. rewrite Z.ltb_lt, Z.ltb_ge. lia.
  - intros a b c. rewrite !Z.ltb_ge. lia.
  - by apply Forall_forall.
  - exists sorted. repeat apply conj; try assumption.
    intros f. unfold duration_key.
    generalize (map duration_minutes (itinerary f)). intros l.
    rewrite <- (Z.add_0_l (foldr Z.add 0 l)). generalize 0 at 1 2.
    induction l as [|x l IH]; intros acc; simpl; [lia|].
    rewrite IH. lia.
Qed.

Lemma SFcompare_rank (a b : spec_float) :
  a <> S754_nan -> b <> S754_nan ->
  SFcompare a b = Some (rank_cmp (float_rank a) (float_rank b)).
Proof.
  intros Ha Hb. unfold rank_cmp, lex.
  destruct a as [sa|sa| |sa ma ea], b as [sb|sb| |sb mb eb]; try done;
    try destruct sa; try destruct sb; try reflexivity; simpl.
  rewrite Z.compare_opp, (Z.compare_antisym ea eb).
  change (PosDef.Pos.compare_cont Eq ma mb) with (Pos.compare ma mb).
  by destruct (ea ?= eb).
Qed.

Lemma float_rank_order :
  order_cmp (fun a b : float =>
               rank_cmp (float_rank (Prim2SF a)) (float_rank (Prim2SF b))).
Proof.
  unfold rank_cmp.
  apply (order_cmp_lex
           (fun a b : float => (float_rank (Prim2SF a)).1.1 ?= (float_rank (Prim2SF b)).1.1)
           (fun a b : float =>
              lex ((float_rank (Prim2SF a)).1.2 ?= (float_rank (Prim2SF b)).1.2)
                  ((float_rank (Prim2SF a)).2 ?= (float_rank (Prim2SF b)).2))).
  - apply (order_cmp_Z (fun a : float => (float_rank (Prim2SF a)).1.1)).
  - apply (order_cmp_lex _ _
             (order_cmp_Z (fun a : float => (float_rank (Prim2SF a)).1.2))
             (order_cmp_Z (fun a : float => (float_rank (Prim2SF a)).2))).
Qed.

Lemma is_nan_Prim2SF (a : float) :
  PrimFloat.is_nan a = false -> Prim2SF a <> S754_nan.
Proof.
  unfold PrimFloat.is_nan. rewrite FloatAxioms.eqb_spec. intros H E.
  rewrite E in H. discriminate.
Qed.

Lemma float_ltb_rank (a b : float) :
  PrimFloat.is_nan a = false -> PrimFloat.is_nan b = false ->
  PrimFloat.ltb a b = float_rank_ltb a b.
Proof.
  intros Ha Hb. rewrite FloatAxioms.ltb_spec. unfold SFltb, float_rank_ltb.
  by rewrite (SFcompare_rank _ _ (is_nan_Prim2SF a Ha) (is_nan_Prim2SF b Hb)).
Qed.

(** X12: sorting by "price" never fails and returns the same flights;
    when no price is NaN they are in ascending order of price. *)
Theorem sort_price_ascending (utcoffset : string -> datetime -> Z)
    (flights : list Flight) :
  exists sorted,
    sort_flights utcoffset flights "price" = Ok sorted
    /\ flights ≡ₚ sorted
    /\ (Forall (fun f => PrimFloat.is_nan (price_total f) = false) flights ->
        ascending PrimFloat.ltb price_key sorted).
Proof.
  unfold sort_flights. simpl.
  destruct (list_sort_total (A := Flight) (fun a b => Ok (PrimFloat.ltb a b))
              (fun _ => True)) with (key := price_key) (l := flights)
    as (sorted & Hs & Hperm).
  { intros a b _ _. by eexists. }
  { by apply Forall_forall. }
  exists sorted. repeat apply conj; try assumption.
  intros Hnan.
  destruct (list_sort_ok (A := Flight) (fun a b => Ok (PrimFloat.ltb a b))
              float_rank_ltb (fun x => PrimFloat.is_nan x = false))
    with (key := price_key) (l := flights)
    as (sorted' & Hs' & Hperm' & Hasc).
  - intros a b Ha Hb. by rewrite (float_ltb_rank a b Ha Hb).
  - intros a b. apply (order_cmp_asym _ a b float_rank_order).
  - intros a b c. apply (order_cmp_negtrans _ a b c float_rank_order).
  - exact Hnan.
  - rewrite Hs in Hs'. injection Hs' as <-.
    apply (ascending_weaken float_rank_ltb PrimFloat.ltb
             (fun x => PrimFloat.is_nan x = false)).
    + intros a b Ha Hb. symmetry. by apply float_ltb_rank.
    + by rewrite <- Hperm.
    + exact Hasc.
Qed.

Lemma sort_price_ascending_witness :
  exists sorted,
    sort_flights (fun _ _ => 3600000000) sample_flights "price" = Ok sorted
    /\ sample_flights ≡ₚ sorted
    /\ ascending PrimFloat.ltb price_key sorted.
Proof.
  destruct (sort_price_ascending (fun _ _ => 3600000000) sample_flights)
    as (sorted & Hs & Hperm & Hasc).
  exists sorted. repeat apply conj; try assumption.
  apply Hasc. repeat constructor.
Defined.

(** ** Displaying and searching *)

Lemma departure_key_aware f :
  itinerary f <> [] -> departures_aware f -> aware (departure_key f) = true.
Proof.
  unfold departure_key, departures_aware.
  destruct (itinerary f) as [|s segs]; [done|]. intros _ H. by inversion H.
Qed.

Lemma sort_flights_total (utcoffset : string -> datetime -> Z)
    (flights : list Flight) (sort_by : string) :
  (sort_by = "departure" -> sortable_by_departure flights) ->
  exists sorted, sort_flights utcoffset flights sort_by = Ok sorted
                 /\ flights ≡ₚ sorted.
Proof.
  intros Hdep. unfold sort_flights.
  destruct (String.eqb sort_by "price") eqn:E1.
  { apply (list_sort_total (A := Flight) _ (fun _ => True)).
    - intros a b _ _. by eexists.
    - by apply Forall_forall. }
  destruct (String.eqb sort_by "duration") eqn:E2.
  { apply (list_sort_total (A := Flight) _ (fun _ => True)).
    - intros a b _ _. by eexists.
    - by apply Forall_forall. }
  destruct (String.eqb sort_by "departure") eqn:E3.
  { apply String.eqb_eq in E3.
    apply (list_sort_total (A := Flight) _ (fun d => aware d = true)).
    - intros a b Ha Hb. apply datetime_lt_same_kind. congruence.
    - eapply Forall_impl; [exact (Hdep E3)|].
      intros f [Hf Ha]. by apply departure_key_aware. }
  by exists flights.
Qed.

(** X13: [display_flights] does not fail for the sort keys "price" and
    "duration" nor for a key it does not know, and for "departure" it
    does not fail when every flight has a first segment with a zoned
    departure: the list is left holding the same flights, and what is
    printed is the table of those that have segments, in the order of
    the list, or the no-flights message for an empty list. *)
Theorem display_flights_succeeds (utcoffset : string -> datetime -> Z)
    (flights : list Flight) (sort_by : string) :
  (sort_by = "departure" -> sortable_by_departure flights) ->
  exists sorted,
    flights ≡ₚ sorted
    /\ display_flights utcoffset flights sort_by
       = (shown flights sorted, Ok sorted)
    /\ (~ In sort_by ["price"; "duration"; "departure"] -> sorted = flights).
Proof.
  intros Hdep.
  destruct (sort_flights_total utcoffset flights sort_by Hdep)
    as (sorted & Hs & Hperm).
  destruct flights as [|f fs].
  - exists []. repeat split; done.
  - exists sorted. repeat apply conj; [exact Hperm | |].
    + unfold display_flights. by rewrite Hs.
    + intros Hkey. unfold sort_flights in Hs. simpl in Hkey.
      destruct (String.eqb sort_by "price") eqn:E1;
        [apply String.eqb_eq in E1 as ->; exfalso; apply Hkey; auto|].
      destruct (String.eqb sort_by "duration") eqn:E2;
        [apply String.eqb_eq in E2 as ->; exfalso; apply Hkey; auto|].
      destruct (String.eqb sort_by "departure") eqn:E3;
        [apply String.eqb_eq in E3 as ->; exfalso; apply Hkey; auto|].
      by injection Hs.
Qed.

Lemma display_flights_succeeds_witness :
  exists sorted,
    sample_flights ≡ₚ sorted
    /\ display_flights (fun _ _ => 3600000000) sample_flights "departure"
       = (shown sample_flights sorted, Ok sorted)
    /\ (~ In "departure" ["price"; "duration"; "departure"] ->
        sorted = sample_flights).
Proof.
  apply (display_flights_succeeds (fun _ _ => 3600000000) sample_flights "departure").
  intros _. repeat constructor; discriminate.
Defined.



Section SearchOutcome.

Variable utcoffset : string -> datetime -> Z.
Variable strptime_ymd : string -> result date.
Variable mock_dataset : list Flight.
Variable kiwi_api : string -> search_params -> result (list Flight).

(** [datetime.strptime] reports text it cannot read with [ValueError]. *)
Hypothesis strptime_raises :
  forall s e, strptime_ymd s = Raise e -> e = ValueError.





End SearchOutcome.

Section SearchMock.

Variable utcoffset : string -> datetime -> Z.
Variable strptime_ymd : string -> result date.
Variable mock_dataset : list Flight.
Variable kiwi_api : string -> search_params -> result (list Flight).

(** X15: with the Mock provider in use (no credentials for the
    selected provider), a well-formed command line and a data set whose
    departures carry a zone, [search] completes for every sort key: it
    prints the provider, the number of flights kept out of the number
    loaded, and the table of all flights kept (or the no-flights
    message); the flights kept are never more than those loaded and each
    of them has a segment, so that the sort by departure meets no flight
    without one. *)
Theorem search_mock_completes (env : environ) (o : search_options)
    (d : string) dates tw :
  selected_credentials env = None ->
  (given (opt_date o) = Some d /\ given (opt_date_range o) = None
   \/ given (opt_date o) = None /\ given (opt_date_range o) = Some d) ->
  parse_date_range strptime_ymd d = Ok dates ->
  parse_time_window (opt_dep_window o) = ([], Ok tw) ->
  Forall departures_aware mock_dataset ->
  let filtered :=
    filter_flights mock_dataset (normalize_airline_codes (opt_airlines o))
      (opt_max_price o) tw (Some dates) in
  exists warn sorted,
    search utcoffset strptime_ymd mock_dataset kiwi_api env o
    = ((warn ++ [InfoSearching "MockProvider";
                 InfoFound (List.length filtered) (List.length mock_dataset)]
             ++ shown filtered sorted)%list, Ok tt)
    /\ Forall (fun m => is_error m = false) warn
    /\ filtered ≡ₚ sorted
    /\ (List.length filtered <= List.length mock_dataset)%nat
    /\ List.filter has_itinerary sorted = sorted.
Proof.
  intros Hcred Hd Hdates Htw Haware filtered.
  pose proof (get_provider_cases env) as Hp. cbv zeta in Hp.
  rewrite Hcred in Hp.
  assert (Hsub : filtered `sublist_of` mock_dataset)
    by apply filter_flights_sublist.
  assert (Hseg : Forall (fun f => itinerary f <> []) filtered).
  { apply Forall_forall. intros f Hf. apply list_elem_of_In in Hf.
    unfold filtered in Hf. rewrite filter_flights_keeps in Hf.
    apply filter_In in Hf as [_ Hk].
    eapply keeps_itinerary; [|exact Hk]. right. discriminate. }
  assert (Hsortable : sortable_by_departure filtered).
  { apply Forall_forall. intros f Hf. split.
    - rewrite Forall_forall in Hseg. by apply Hseg.
    - rewrite Forall_forall in Haware. apply Haware.
      eapply elem_of_sublist; [exact Hf | exact Hsub]. }
  destruct (sort_flights_total utcoffset filtered (opt_sort o) (fun _ => Hsortable))
    as (sorted & Hs & Hperm).
  assert (Hrows : List.filter has_itinerary sorted = sorted).
  { assert (Hall : Forall (fun f => itinerary f <> []) sorted)
      by (by rewrite <- Hperm).
    clear -Hall. induction sorted as [|f l IH]; [reflexivity|].
    apply Forall_cons in Hall as [Hf Hl]. simpl. unfold has_itinerary at 1.
    destruct (itinerary f); [done|]. by rewrite (IH Hl). }
  assert (Hdisp : display_flights utcoffset filtered (opt_sort o)
                  = (shown filtered sorted, Ok sorted)).
  { unfold display_flights, shown. destruct filtered as [|f0 fs0].
    - apply Permutation_nil_l in Hperm. by subst.
    - by rewrite Hs. }
  exists (if String.eqb (PROVIDER_NAME env) "MOCK" then []
          else [WarnNoApiKey (PROVIDER_NAME env)]), sorted.
  split; [|split; [|split; [exact Hperm|split; [|exact Hrows]]]].
  - unfold search.
    destruct Hd as [[-> ->]|[-> ->]]; rewrite Hdates, Htw, Hp;
      cbv beta iota zeta delta [io_bind lift echo ret raise search_flights
                                 class_name];
      fold filtered; rewrite Hdisp;
      cbv beta iota zeta;
      destruct (String.eqb (PROVIDER_NAME env) "MOCK");
      destruct (shown filtered sorted); cbn [app]; rewrite ?app_nil_r; reflexivity.
  - destruct (String.eqb (PROVIDER_NAME env) "MOCK"); by repeat constructor.
  - by apply sublist_length.
Qed.

End SearchMock.

Lemma search_mock_completes_witness :
  let o := mk_search_options "OSL" "PER" (Some "2025-12-10") None 1 "economy"
             (Some 9000%float) (Some "qr") (Some "06:00-12:00") "departure" in
  let strptime := fun _ : string => Ok (mk_date 2025 12 10) in
  let filtered :=
    filter_flights sample_flights (normalize_airline_codes (opt_airlines o))
      (opt_max_price o) (Some (mk_time 6 0 0 0, mk_time 12 0 0 0))
      (Some (mk_date 2025 12 10, None)) in
  exists warn sorted,
    search (fun _ _ => 3600000000) strptime sample_flights (fun _ _ => Ok []) ∅ o
    = ((warn ++ [InfoSearching "MockProvider";
                 InfoFound (List.length filtered) (List.length sample_flights)]
             ++ shown filtered sorted)%list, Ok tt)
    /\ Forall (fun m => is_error m = false) warn
    /\ filtered ≡ₚ sorted
    /\ (List.length filtered <= List.length sample_flights)%nat
    /\ List.filter has_itinerary sorted = sorted.
Proof.
  intros o strptime filtered.
  apply (search_mock_completes (fun _ _ => 3600000000) strptime sample_flights
           (fun _ _ => Ok []) ∅ o "2025-12-10" (mk_date 2025 12 10, None)
           (Some (mk_time 6 0 0 0, mk_time 12 0 0 0))).
  - reflexivity.
  - left. split; reflexivity.
  - reflexivity.
  - reflexivity.
  - repeat constructor.
Defined.

(** ** Cabin classes *)

Lemma lower_char_upper c : lower_char (upper_char c) = lower_char c.
Proof. destruct c as [[|] [|] [|] [|] [|] [|] [|] [|]]; reflexivity. Qed.

Lemma lower_char_idem c : lower_char (lower_char c) = lower_char c.
Proof. destruct c as [[|] [|] [|] [|] [|] [|] [|] [|]]; reflexivity. Qed.

Lemma lower_upper s : lower (upper s) = lower s.
Proof.
  induction s as [|c s IH]; simpl; [reflexivity|].
  by rewrite lower_char_upper, IH.
Qed.

Lemma lower_idem s : lower (lower s) = lower s.
Proof.
  induction s as [|c s IH]; simpl; [reflexivity|].
  by rewrite lower_char_idem, IH.
Qed.

(** X16: the Amadeus travel class depends on the cabin text only up to
    letter case, is always one of the four classes of the interface, is
    ECONOMY for every text that is not the name of a cabin class, and
    differs for different cabin classes. *)
Theorem amadeus_travel_class_closed (cabin : string) :
  In (_amadeus_travel_class cabin)
     ["ECONOMY"; "PREMIUM_ECONOMY"; "BUSINESS"; "FIRST"]
  /\ _amadeus_travel_class (upper cabin) = _amadeus_travel_class cabin
  /\ _amadeus_travel_class (lower cabin) = _amadeus_travel_class cabin
  /\ (~ In (lower cabin) CABINS -> _amadeus_travel_class cabin = "ECONOMY")
  /\ (forall other, In (lower cabin) CABINS -> In (lower other) CABINS ->
        _amadeus_travel_class cabin = _amadeus_travel_class other ->
        lower cabin = lower other).
Proof.
  unfold _amadeus_travel_class. rewrite lower_upper, lower_idem.
  generalize (lower cabin). intros c. cbv zeta. unfold dict_get, CABINS.
  repeat apply conj; try reflexivity.
  - repeat (match goal with
            | |- context [String.eqb ?k c] => destruct (String.eqb k c)
            end); simpl; auto 6.
  - intros Hc.
    repeat (match goal with
            | |- context [String.eqb ?k c] =>
                destruct (String.eqb_spec k c) as [<-|]
            end); try reflexivity; exfalso; apply Hc; simpl; auto 6.
  - intros other. generalize (lower other). intros c' Hc Hc'. simpl in Hc, Hc'.
    repeat (destruct Hc as [<-|Hc]; [|]); try done;
      repeat (destruct Hc' as [<-|Hc']; [|]); try done;
      simpl; congruence.
Qed.

Lemma amadeus_travel_class_closed_witness :
  _amadeus_travel_class "Nonsense" = "ECONOMY"
  /\ lower "BUSINESS" = lower "business".
Proof.
  destruct (amadeus_travel_class_closed "Nonsense") as (_ & _ & _ & Hd & _).
  destruct (amadeus_travel_class_closed "BUSINESS") as (_ & _ & _ & _ & Hi).
  split.
  - apply Hd. simpl. intros [H|[H|[H|[H|[]]]]]; discriminate H.
  - apply (Hi "business"); simpl; auto.
Defined.

(** X17: the Kiwi cabin code depends on the cabin text only up to
    letter case, is always one of M, W, C and F, is M for every text
    that is not the name of a cabin class, and differs for different
    cabin classes. *)
Theorem kiwi_cabin_class_closed (cabin : string) :
  In (_map_cabin_class cabin) ["M"; "W"; "C"; "F"]
  /\ _map_cabin_class (upper cabin) = _map_cabin_class cabin
  /\ _map_cabin_class (lower cabin) = _map_cabin_class cabin
  /\ (~ In (lower cabin) CABINS -> _map_cabin_class cabin = "M")
  /\ (forall other, In (lower cabin) CABINS -> In (lower other) CABINS ->
        _map_cabin_class cabin = _map_cabin_class other ->
        lower cabin = lower other).
Proof.
  unfold _map_cabin_class. rewrite lower_upper, lower_idem.
  generalize (lower cabin). intros c. cbv zeta. unfold dict_get, CABINS.
  repeat apply conj; try reflexivity.
  - repeat (match goal with
            | |- context [String.eqb ?k c] => destruct (String.eqb k c)
            end); simpl; auto 6.
  - intros Hc.
    repeat (match goal with
            | |- context [String.eqb ?k c] =>
                destruct (String.eqb_spec k c) as [<-|]
            end); try reflexivity; exfalso; apply Hc; simpl; auto 6.
  - intros other. generalize (lower other). intros c' Hc Hc'. simpl in Hc, Hc'.
    repeat (destruct Hc as [<-|Hc]; [|]); try done;
      repeat (destruct Hc' as [<-|Hc']; [|]); try done;
      simpl; congruence.
Qed.

Lemma kiwi_cabin_class_closed_witness :
  _map_cabin_class "Nonsense" = "M"
  /\ lower "First" = lower "FIRST".
Proof.
  destruct (kiwi_cabin_class_closed "Nonsense") as (_ & _ & _ & Hd & _).
  destruct (kiwi_cabin_class_closed "First") as (_ & _ & _ & _ & Hi).
  split.
  - apply Hd. simpl. intros [H|[H|[H|[H|[]]]]]; discriminate H.
  - apply (Hi "FIRST"); simpl; auto.
Defined.

(** ** Formatting of durations and stops *)

Lemma not_digit_chars c :
  is_digit c = false ->
  Forall (fun d => Ascii.eqb d c = false)
    ["0"; "1"; "2"; "3"; "4"; "5"; "6"; "7"; "8"; "9"]%char.
Proof.
  destruct c as [[|] [|] [|] [|] [|] [|] [|] [|]]; vm_compute;
    intros H; try discriminate H; repeat constructor.
Qed.

Lemma string_of_uint_chars c (d : Decimal.uint) :
  is_digit c = false ->
  has_char c (DecimalString.NilEmpty.string_of_uint d) = false.
Proof.
  intros Hc. pose proof (not_digit_chars c Hc) as H.
  repeat match type of H with
         | Forall _ (_ :: _) =>
             let H0 := fresh "H0" in
             apply List.Forall_cons_iff in H as [H0 H]
         end.
  induction d; cbn [DecimalString.NilEmpty.string_of_uint has_char];
    rewrite ?IHd, ?orb_false_r; try reflexivity; assumption.
Qed.

Lemma str_chars c n :
  is_digit c = false -> c <> "-"%char -> has_char c (str n) = false.
Proof.
  intros Hc Hm. unfold str.
  assert (Hu : forall d, has_char c (DecimalString.NilZero.string_of_uint d) = false).
  { intros d. destruct d; try apply (string_of_uint_chars c _ Hc).
    pose proof (not_digit_chars c Hc) as H.
    apply List.Forall_cons_iff in H as [H0 _].
    cbn [DecimalString.NilZero.string_of_uint has_char]. by rewrite H0. }
  destruct (Z.to_int n) as [d|d];
    cbn [DecimalString.NilZero.string_of_int has_char]; [apply Hu|].
  rewrite Hu, orb_false_r. apply Ascii.eqb_neq. congruence.
Qed.

Lemma str_inj a b : str a = str b -> a = b.
Proof.
  unfold str. intros H. apply DecimalZ.to_int_inj.
  assert (Hn : forall n, Z.to_int n <> Decimal.Pos Decimal.Nil
                         /\ Z.to_int n <> Decimal.Neg Decimal.Nil).
  { intros [|p|p]; simpl; split; try discriminate; intros [= E];
      by apply DecimalPos.Unsigned.to_uint_nonnil in E. }
  destruct (Hn a) as [Ha1 Ha2], (Hn b) as [Hb1 Hb2].
  pose proof (DecimalString.NilZero.isi _ Ha1 Ha2) as Ea.
  pose proof (DecimalString.NilZero.isi _ Hb1 Hb2) as Eb.
  rewrite H in Ea. rewrite Ea in Eb. by injection Eb.
Qed.

(** A text is cut in one way only at the first occurrence of a
    character. *)
Lemma cut_unique sep (x y x' y' : string) :
  has_char sep x = false -> has_char sep x' = false ->
  x ++ String sep y = x' ++ String sep y' -> x = x' /\ y = y'.
Proof.
  intros Hx Hx' E.
  pose proof (f_equal (split sep) E) as Es.
  rewrite (split_app _ _ _ Hx), (split_app _ _ _ Hx') in Es.
  injection Es as -> _. split; [reflexivity|].
  apply String.app_inj in E. by injection E.
Qed.

(** X18: [format_duration] writes whole hours and the remaining
    minutes: the text is "{h}h {m}m" for the one pair with
    [minutes = 60 h + m] and [0 <= m < 60] (for a negative duration the
    hours are rounded down: -5 gives "-1h 55m"), and different durations
    give different texts. *)
Theorem format_duration_hours_minutes :
  (forall minutes, exists h m,
      format_duration minutes = str h ++ "h " ++ str m ++ "m"
      /\ minutes = 60 * h + m /\ 0 <= m < 60)
  /\ (forall a b, format_duration a = format_duration b -> a = b)
  /\ format_duration 665 = "11h 5m"
  /\ format_duration 0 = "0h 0m"
  /\ format_duration (-5) = "-1h 55m".
Proof.
  repeat apply conj; try reflexivity.
  - intros minutes. exists (minutes / 60), (minutes mod 60).
    split; [reflexivity|].
    pose proof (Z.div_mod minutes 60). pose proof (Z.mod_pos_bound minutes 60). lia.
  - intros a b. unfold format_duration. cbv zeta. intros E.
    change (str (a / 60) ++ String "h" (" " ++ str (a mod 60) ++ "m")
            = str (b / 60) ++ String "h" (" " ++ str (b mod 60) ++ "m")) in E.
    apply cut_unique in E as [Eh Em]; try (by apply str_chars).
    injection Em as Em.
    change (str (a mod 60) ++ String "m" EmptyString
            = str (b mod 60) ++ String "m" EmptyString) in Em.
    apply cut_unique in Em as [Em _]; try (by apply str_chars).
    apply str_inj in Eh, Em.
    rewrite (Z.div_mod a 60), (Z.div_mod b 60) by lia. by rewrite Eh, Em.
Qed.


(** The text for a number of stops. *)
Lemma format_stops_length (segments : list FlightSegment) :
  format_stops segments = stops_text (List.length segments).
Proof.
  unfold format_stops, stops_text.
  destruct segments as [|s1 [|s2 [|s3 l]]]; try reflexivity.
  cbv zeta. change (List.length (s1 :: s2 :: s3 :: l)) with (S (S (S (List.length l)))).
  destruct (Z.eqb_spec (Z.of_nat (S (S (S (List.length l)))) - 1) 0); [lia|].
  destruct (Z.eqb_spec (Z.of_nat (S (S (S (List.length l)))) - 1) 1); [lia|].
  reflexivity.
Qed.

Lemma stops_text_inj (n m : nat) : stops_text n = stops_text m -> n = m.
Proof.
  assert (Hsp : forall n, split " " (str n ++ " stops") = [str n; "stops"]).
  { intros k. change (str k ++ " stops") with (str k ++ String " " "stops").
    rewrite split_app by (by apply str_chars). reflexivity. }
  intros E. apply (f_equal (split " ")) in E. unfold stops_text in E.
  destruct n as [|[|[|n]]], m as [|[|[|m]]];
    rewrite ?Hsp in E; try reflexivity; try discriminate E;
    injection E as E; apply str_inj in E; lia.
Qed.

(** X19: [format_stops] depends on the number of segments alone and
    tells different numbers apart: it is "non-stop" exactly for one
    segment, "1 stop" exactly for two, "{n-1} stops" for every other
    number n, which for an itinerary without segments is "-1 stops". *)
Theorem format_stops_by_length (a b : list FlightSegment) :
  (List.length a = List.length b <-> format_stops a = format_stops b)
  /\ (format_stops a = "non-stop" <-> List.length a = 1%nat)
  /\ (format_stops a = "1 stop" <-> List.length a = 2%nat)
  /\ (List.length a <> 1%nat -> List.length a <> 2%nat ->
      format_stops a = str (Z.of_nat (List.length a) - 1) ++ " stops")
  /\ format_stops [] = "-1 stops".
Proof.
  rewrite !format_stops_length. repeat apply conj.
  - by intros ->.
  - apply stops_text_inj.
  - intros E. by apply (stops_text_inj (List.length a) 1%nat).
  - by intros ->.
  - intros E. by apply (stops_text_inj (List.length a) 2%nat).
  - by intros ->.
  - intros H1 H2. unfold stops_text.
    destruct (List.length a) as [|[|[|n]]]; done.
  - reflexivity.
Qed.

Lemma format_stops_by_length_witness :
  let seg := FlightSegment_new "OSL" "DOH" (dt 2025 12 10 7 30)
               (dt 2025 12 10 14 0) 390 "QR176" "QR" in
  format_stops [seg; seg; seg; seg] = "3 stops".
Proof.
  intros seg.
  apply (format_stops_by_length [seg; seg; seg; seg] []); discriminate.
Defined.

(** ** Durations written and read back *)








(** ** Normalising twice *)

Lemma is_space_upper c : is_space (upper_char c) = is_space c.
Proof. destruct c as [[|] [|] [|] [|] [|] [|] [|] [|]]; reflexivity. Qed.

Lemma comma_upper c : Ascii.eqb (upper_char c) "," = Ascii.eqb c ",".
Proof. destruct c as [[|] [|] [|] [|] [|] [|] [|] [|]]; reflexivity. Qed.

Lemma lstrip_upper s : lstrip (upper s) = upper (lstrip s).
Proof.
  induction s as [|c s IH]; [reflexivity|].
  cbn [upper lstrip]. rewrite is_space_upper. by destruct (is_space c).
Qed.

Lemma rstrip_aux_upper s :
  rstrip_aux (upper s) = option_map upper (rstrip_aux s).
Proof.
  induction s as [|c s IH]; [reflexivity|].
  cbn [upper rstrip_aux]. rewrite IH, is_space_upper.
  destruct (rstrip_aux s); [reflexivity|]. by destruct (is_space c).
Qed.

Lemma strip_upper s : strip (upper s) = upper (strip s).
Proof.
  unfold strip, rstrip. rewrite lstrip_upper, rstrip_aux_upper.
  by destruct (rstrip_aux (lstrip s)).
Qed.

Lemma lstrip_head s : no_space_head (lstrip s).
Proof.
  induction s as [|c s IH]; [exact I|].
  cbn [lstrip]. destruct (is_space c) eqn:E; [exact IH | exact E].
Qed.

Lemma lstrip_id s : no_space_head s -> lstrip s = s.
Proof. destruct s as [|c s]; [reflexivity|]. cbn. by intros ->. Qed.

Lemma rstrip_aux_idem s r : rstrip_aux s = Some r -> rstrip_aux r = Some r.
Proof.
  revert r. induction s as [|c s IH]; intros r; [discriminate|].
  cbn [rstrip_aux]. destruct (rstrip_aux s) as [r0|] eqn:E.
  - intros [= <-]. cbn [rstrip_aux]. by rewrite (IH r0).
  - destruct (is_space c) eqn:Hc; [discriminate|].
    intros [= <-]. cbn [rstrip_aux]. by rewrite Hc.
Qed.

Lemma rstrip_head s : no_space_head s -> no_space_head (rstrip s).
Proof.
  unfold rstrip. destruct s as [|c s]; [by intros _|].
  cbn [no_space_head rstrip_aux]. intros Hc.
  destruct (rstrip_aux s); [exact Hc|]. by rewrite Hc.
Qed.

Lemma strip_idem s : strip (strip s) = strip s.
Proof.
  unfold strip.
  rewrite (lstrip_id (rstrip (lstrip s))) by apply rstrip_head, lstrip_head.
  unfold rstrip. destruct (rstrip_aux (lstrip s)) as [r|] eqn:E; [|reflexivity].
  by rewrite (rstrip_aux_idem _ _ E).
Qed.

Lemma has_char_lstrip c s : has_char c s = false -> has_char c (lstrip s) = false.
Proof.
  induction s as [|a s IH]; [done|]. cbn [has_char lstrip].
  intros H. apply orb_false_iff in H as [Ha Hs].
  destruct (is_space a); [by apply IH|]. cbn [has_char]. by rewrite Ha, Hs.
Qed.

Lemma has_char_rstrip c s : has_char c s = false -> has_char c (rstrip s) = false.
Proof.
  unfold rstrip.
  assert (H : forall r, rstrip_aux s = Some r -> has_char c s = false ->
                        has_char c r = false).
  { induction s as [|a s IH]; intros r; [discriminate|].
    cbn [rstrip_aux has_char]. intros E Hc.
    apply orb_false_iff in Hc as [Ha Hs].
    destruct (rstrip_aux s) as [r0|].
    - injection E as <-. cbn [has_char]. by rewrite Ha, (IH r0).
    - destruct (is_space a); [discriminate|]. injection E as <-.
      cbn [has_char]. by rewrite Ha. }
  intros Hc. destruct (rstrip_aux s) as [r|]; [by apply H | reflexivity].
Qed.

Lemma has_comma_upper s : has_char "," (upper s) = has_char "," s.
Proof.
  induction s as [|c s IH]; [reflexivity|].
  cbn [upper has_char]. by rewrite comma_upper, IH.
Qed.

Lemma split_join sep (l : list string) :
  l <> [] -> Forall (fun w => has_char sep w = false) l ->
  split sep (join sep l) = l.
Proof.
  induction l as [|x l IH]; [done|]. intros _ Hf.
  apply Forall_cons in Hf as [Hx Hl].
  destruct l as [|y l].
  - cbn [join]. by apply split_no_sep.
  - change (join sep (x :: y :: l)) with (x ++ String sep (join sep (y :: l))).
    rewrite (split_app _ _ _ Hx), IH; done.
Qed.

Lemma find_name_code name code a :
  List.find (fun '(name, _) => contains (lower a) name) AIRLINE_NAMES_TO_CODES
  = Some (name, code) ->
  In code ["QR"; "QF"; "BA"; "EK"; "SAS"; "SQ"; "AY"].
Proof.
  intros E. apply find_some in E as [Hin _]. vm_compute in Hin.
  repeat (destruct Hin as [[= <- <-]|Hin]; [simpl; auto 10|]). done.
Qed.

Lemma token_code_table c :
  In c ["QR"; "QF"; "BA"; "EK"; "SAS"; "SQ"; "AY"] ->
  token_code c = c /\ has_char "," c = false.
Proof.
  intros H. simpl in H.
  repeat (destruct H as [<-|H]; [by vm_compute|]). done.
Qed.

Lemma known_code_fixed a :
  dict_has_key AIRLINE_CODES a = true ->
  token_code a = a /\ has_char "," a = false.
Proof.
  unfold dict_has_key. rewrite existsb_exists. intros ([k v] & Hin & Hk).
  apply String.eqb_eq in Hk as <-. simpl in Hin.
  repeat (destruct Hin as [[= <- <-]|Hin]; [by vm_compute|]). done.
Qed.

(** A code that came out of the normalisation stands for itself. *)
Lemma token_code_idem t :
  has_char "," t = false ->
  token_code (token_code t) = token_code t
  /\ has_char "," (token_code t) = false.
Proof.
  intros Hcomma.
  assert (Hfix : strip (upper (strip t)) = upper (strip t))
    by (by rewrite strip_upper, strip_idem).
  assert (Hc : has_char "," (upper (strip t)) = false).
  { rewrite has_comma_upper. unfold strip.
    by apply has_char_rstrip, has_char_lstrip. }
  unfold token_code at 2 3 4.
  destruct (dict_has_key AIRLINE_CODES (upper (strip t))) eqn:Hk.
  - by apply known_code_fixed.
  - unfold code_for.
    destruct (find _ AIRLINE_NAMES_TO_CODES) as [[name code]|] eqn:E.
    + apply token_code_table. by apply (find_name_code name code (upper (strip t))).
    + split; [|exact Hc]. unfold token_code.
      rewrite Hfix, upper_idem, Hk. unfold code_for. by rewrite E.
Qed.

Lemma join_not_empty sep (l : list string) :
  l <> [] -> Forall (fun w => w <> EmptyString) l -> join sep l <> EmptyString.
Proof.
  destruct l as [|x l]; [done|]. intros _ Hf.
  apply Forall_cons in Hf as [Hx _].
  destruct x as [|c x]; [done|]. by destruct l.
Qed.

(** X21: normalising is idempotent: the codes that
    [normalize_airline_codes] returns for an option, joined by commas
    and normalised again, come back unchanged. *)
Theorem normalize_airline_codes_idempotent (s : string) (codes : list string) :
  normalize_airline_codes (Some s) = Some codes ->
  normalize_airline_codes (Some (join "," codes)) = Some codes.
Proof.
  intros H. destruct s as [|c0 s0]; [discriminate|].
  rewrite normalize_airline_codes_tokens in H by discriminate.
  injection H as <-.
  set (ts := split "," (String c0 s0)).
  assert (Hts : Forall (fun w => has_char "," w = false) ts)
    by apply split_fields.
  assert (Hne : map token_code ts <> []).
  { pose proof (split_not_nil "," (String c0 s0)). unfold ts.
    by destruct (split "," (String c0 s0)). }
  assert (Hidem : Forall (fun c => token_code c = c /\ has_char "," c = false
                                   /\ c <> EmptyString) (map token_code ts)).
  { apply Forall_forall. intros c Hc.
    apply list_elem_of_In, in_map_iff in Hc as (t & <- & Ht).
    rewrite Forall_forall in Hts. apply list_elem_of_In in Ht.
    destruct (token_code_idem t (Hts t Ht)) as [H1 H2].
    repeat split; try assumption. apply token_code_upper. }
  rewrite normalize_airline_codes_tokens.
  - rewrite split_join; [|exact Hne|].
    + f_equal. transitivity (map (fun c => c) (map token_code ts));
        [|apply List.map_id].
      apply map_ext_in. intros c Hc. rewrite Forall_forall in Hidem.
      apply Hidem. by apply list_elem_of_In.
    + eapply Forall_impl; [exact Hidem|]. by intros c (_ & Hc & _).
  - apply join_not_empty; [exact Hne|].
    eapply Forall_impl; [exact Hidem|]. by intros c (_ & _ & Hc).
Qed.

Lemma normalize_airline_codes_idempotent_witness :
  normalize_airline_codes (Some (join "," ["QR"; "EK"; "XX"]))
  = Some ["QR"; "EK"; "XX"].
Proof.
  apply (normalize_airline_codes_idempotent " qatar ,emirates, xx").
  reflexivity.
Defined.

(** ** Segments of the Amadeus adapter *)






Section AmadeusSegments.

Variable fromisoformat : string -> result datetime.


End AmadeusSegments.

